(** * LinkSaverBot: a shallow embedding of [bot.py] and its properties

    The bot keeps one MongoDB collection of link documents and answers the
    chat commands [/save], [/list], [/tags] and [/find].  Each handler of
    [bot.py] is embedded as a function from the collection and the request
    to the replies it sends (and, for [/save], the new collection).

    Python [str] values are sequences of Unicode code points, so that [len]
    and slicing count the bullet of the listing as one character. *)

From Stdlib Require Import String Ascii.
From Stdlib Require Import List NArith ZArith Bool Arith Lia Sorted.
Import ListNotations.

Set Implicit Arguments.

(** ** Python strings *)

Definition char := N.
Definition str := list char.

(** An ASCII literal as a [str]. *)
Definition u (s : string) : str := map N_of_ascii (list_ascii_of_string s).

Definition HASH : char := 35%N.       (* '#' *)
Definition NEWLINE : char := 10%N.    (* '\n' *)
Definition BULLET : char := 8226%N.   (* U+2022 *)

Section PyStr.
Local Open Scope N_scope.

(** [str.isspace] for one code point (CPython's [_PyUnicode_IsWhitespace]). *)
Definition isspace (c : char) : bool :=
  ((9 <=? c) && (c <=? 13)) || ((28 <=? c) && (c <=? 32))
  || (c =? 133) || (c =? 160) || (c =? 5760)
  || ((8192 <=? c) && (c <=? 8202))
  || (c =? 8232) || (c =? 8233) || (c =? 8239) || (c =? 8287) || (c =? 12288).

Fixpoint dropwhile (p : char -> bool) (s : str) : str :=
  match s with
  | [] => []
  | c :: s' => if p c then dropwhile p s' else s
  end.

Definition lstrip (s : str) : str := dropwhile isspace s.
Definition rstrip (s : str) : str := rev (dropwhile isspace (rev s)).
(** [s.strip()] *)
Definition strip (s : str) : str := rstrip (lstrip s).

(** [s.split()]: maximal runs of non-whitespace characters, in order.
    [cur] is the current run, reversed. *)
Fixpoint split_from (cur : str) (s : str) : list str :=
  match s with
  | [] => match cur with [] => [] | _ => [rev cur] end
  | c :: s' =>
      if isspace c
      then match cur with
           | [] => split_from [] s'
           | _ => rev cur :: split_from [] s'
           end
      else split_from (c :: cur) s'
  end.

Definition split (s : str) : list str := split_from [] s.

(** [s.startswith(p)] *)
Fixpoint startswith (p s : str) : bool :=
  match p, s with
  | [], _ => true
  | _ :: _, [] => false
  | a :: p', b :: s' => (a =? b) && startswith p' s'
  end.

(** [s.startswith(ps)] for a tuple [ps] of prefixes. *)
Definition startswith_any (ps : list str) (s : str) : bool :=
  existsb (fun p => startswith p s) ps.

(** [s.replace(old, new)] for a one-character [old]. *)
Definition replace (old : char) (new : str) (s : str) : str :=
  flat_map (fun c => if c =? old then new else [c]) s.

(** [sep.join(l)] *)
Fixpoint join (sep : str) (l : list str) : str :=
  match l with
  | [] => []
  | [x] => x
  | x :: l' => x ++ sep ++ join sep l'
  end.

Fixpoint str_eqb (a b : str) : bool :=
  match a, b with
  | [], [] => true
  | x :: a', y :: b' => (x =? y) && str_eqb a' b'
  | _, _ => false
  end.

(** [a <= b] on strings: lexicographic on code points. *)
Fixpoint str_leb (a b : str) : bool :=
  match a, b with
  | [], _ => true
  | _ :: _, [] => false
  | x :: a', y :: b' =>
      if x <? y then true else if y <? x then false else str_leb a' b'
  end.

(** [c in s] *)
Definition contains (c : char) (s : str) : bool := existsb (N.eqb c) s.

(** [s.find(c)]: the index of the first occurrence, [None] for -1. *)
Fixpoint find_char (c : char) (s : str) : option nat :=
  match s with
  | [] => None
  | x :: s' => if x =? c then Some O else option_map S (find_char c s')
  end.

(** [s.find(c, start)] *)
Definition find_char_from (c : char) (s : str) (start : nat) : option nat :=
  option_map (Nat.add start) (find_char c (skipn start s)).

End PyStr.

(** [s[i:j]] for [0 <= i], [0 <= j]. *)
Definition slice (s : str) (i j : nat) : str := firstn (j - i) (skipn i s).

(** [range(0, stop, step)] for [step > 0]: [ceil(stop / step)] multiples of
    [step]. *)
Definition range_step (stop step : nat) : list nat :=
  map (fun k => k * step) (seq 0 ((stop + step - 1) / step)).

(** [x in l] for a list of strings. *)
Definition str_in (x : str) (l : list str) : bool := existsb (str_eqb x) l.

(** A Python [set] of strings: [add] keeps one copy of each element. *)
Definition set_add (x : str) (s : list str) : list str :=
  if str_in x s then s else s ++ [x].

(** [s.update(l)] *)
Definition set_update (s : list str) (l : list str) : list str :=
  fold_left (fun acc x => set_add x acc) l s.

Fixpoint insert_sorted (x : str) (l : list str) : list str :=
  match l with
  | [] => [x]
  | y :: l' => if str_leb x y then x :: l else y :: insert_sorted x l'
  end.

(** [sorted(s)] *)
Definition sorted (s : list str) : list str :=
  fold_right insert_sorted [] s.

(** ** [urllib.parse.urlparse]

    The bot reads only [netloc] of the result.  The embedding follows
    [urlsplit]: leading C0 controls and spaces are stripped, tab, CR and LF
    are removed, a leading [scheme:] is split off, and after [//] the
    network location runs up to the first of [/], [?], [#].  A network
    location with one bracket and not the other raises [ValueError].

    Two further checks differ between interpreter versions and need tables
    that are not part of the bot: the validation of a bracketed host and
    the NFKC check of a non-ASCII network location.  They are the one
    method of the class [Urllib]; [urlsplit] consults it exactly where the
    library runs them. *)

Class Urllib := { netloc_check_raises : str -> bool }.

(** An interpreter whose further checks accept every network location. *)
Definition urllib_plain : Urllib := {| netloc_check_raises := fun _ => false |}.

Record ParseResult := { scheme : str; netloc : str }.

Inductive parsed :=
| Parsed (r : ParseResult)
| ValueError.

Section Urlparse.
Context {py : Urllib}.
Local Open Scope N_scope.

Definition isascii_alpha (c : char) : bool :=
  ((65 <=? c) && (c <=? 90)) || ((97 <=? c) && (c <=? 122)).

Definition isdigit (c : char) : bool := (48 <=? c) && (c <=? 57).

(** [c in scheme_chars]: letters, digits, [+], [-], [.] *)
Definition is_scheme_char (c : char) : bool :=
  isascii_alpha c || isdigit c || (c =? 43) || (c =? 45) || (c =? 46).

(** [str.lower] on a string of scheme characters. *)
Definition lower_ascii (s : str) : str :=
  map (fun c => if (65 <=? c) && (c <=? 90) then c + 32 else c) s.

Definition isascii (s : str) : bool := forallb (fun c => c <? 128) s.

(** The scheme and the rest of [url]. *)
Definition split_scheme (url : str) : str * str :=
  match find_char 58 url with
  | Some i =>
      if Nat.ltb 0 i
         && match url with c :: _ => isascii_alpha c | [] => false end
         && forallb is_scheme_char (firstn i url)
      then (lower_ascii (firstn i url), skipn (S i) url)
      else ([], url)
  | None => ([], url)
  end.

(** [_splitnetloc(url, start)] *)
Definition splitnetloc (url : str) (start : nat) : str * str :=
  let delim :=
    fold_left
      (fun delim c =>
         match find_char_from c url start with
         | Some wdelim => Nat.min delim wdelim
         | None => delim
         end)
      [47; 63; 35] (length url) in
  (slice url start delim, skipn delim url).

Definition netloc_raises (nl : str) : bool :=
  (contains 91 nl && negb (contains 93 nl))
  || (contains 93 nl && negb (contains 91 nl))
  || (((contains 91 nl && contains 93 nl)
       || (negb (match nl with [] => true | _ => false end) && negb (isascii nl)))
      && netloc_check_raises nl).

Definition urlparse (url0 : str) : parsed :=
  let url := dropwhile (fun c => c <=? 32) url0 in
  let url := filter (fun c => negb ((c =? 9) || (c =? 10) || (c =? 13))) url in
  let '(sch, url) := split_scheme url in
  let nl := if startswith [47; 47] url then fst (splitnetloc url 2) else [] in
  if netloc_raises nl then ValueError
  else Parsed {| scheme := sch; netloc := nl |}.

End Urlparse.

(** [s.partition(c)]: the part before the first [c], whether [c] occurs,
    and the part after it. *)
Fixpoint str_partition (c : char) (s : str) : str * bool * str :=
  match s with
  | [] => ([], false, [])
  | x :: s' =>
      if N.eqb x c then ([], true, s')
      else let '(before, found, after) := str_partition c s' in
           (x :: before, found, after)
  end.

(** [s.rpartition(c)[2]]: the part after the last [c], all of [s] when [c]
    does not occur. *)
Definition rpartition_tail (c : char) (s : str) : str :=
  rev (fst (fst (str_partition c (rev s)))).

(** [_hostinfo[0]] of a parse result with network location [nl]: the host
    name, after the user information up to the last [@], without the port
    and the brackets.  The attribute [hostname] is [None] exactly when it
    is empty. *)
Definition hostinfo_hostname (nl : str) : str :=
  let hostinfo := rpartition_tail 64%N nl in
  let '(_, have_open_br, bracketed) := str_partition 91%N hostinfo in
  if have_open_br then fst (fst (str_partition 93%N bracketed))
  else fst (fst (str_partition 58%N hostinfo)).

(** ** The collection *)

(** A document of [links_collection], as [save_link] builds it. *)
Record LinkData := {
  user_id : Z;
  link : str;
  tags : list str;
  created_at : Z
}.

(** The collection, in insertion order. *)
Definition Collection := list LinkData.

(** [links_collection.insert_one(d)] *)
Definition insert_one (db : Collection) (d : LinkData) : Collection :=
  db ++ [d].

(** [links_collection.find({'user_id': uid})] *)
Definition find_user (db : Collection) (uid : Z) : list LinkData :=
  filter (fun d => Z.eqb (user_id d) uid) db.

(** [links_collection.find({'user_id': uid, 'tags': tag})]: the array field
    [tags] matches when one of its elements equals [tag]. *)
Definition find_user_tag (db : Collection) (uid : Z) (tag : str)
  : list LinkData :=
  filter (fun d => Z.eqb (user_id d) uid && str_in tag (tags d)) db.

(** ** The handlers *)

Definition SAVE_USAGE : str :=
  u "Please provide a link and optional tags." ++ [NEWLINE]
  ++ u "Format: /save <link> #tag1 #tag2".

Definition INVALID_URL : str :=
  u "Please provide a valid URL." ++ [NEWLINE]
  ++ u "Example: www.example.com or https://example.com".

Definition NO_LINKS : str := u "You haven't saved any links yet.".
Definition NO_TAGS : str := u "You haven't used any tags yet.".

Definition FIND_USAGE : str :=
  u "Please provide a tag to search for." ++ [NEWLINE]
  ++ u "Format: /find #tag".

(** The size above which [list_links] splits its message. *)
Definition CHUNK : nat := 4000.

(** [[word[1:] for word in words if word.startswith('#')]] *)
Definition extract_tags (words : list str) : list str :=
  map (skipn 1) (filter (startswith [HASH]) words).

(** [link.startswith(('http://', 'https://'))] *)
Definition has_http_prefix (link : str) : bool :=
  startswith_any [u "http://"; u "https://"] link.

(** [link] after the scheme default of [save_link]. *)
Definition add_scheme (link : str) : str :=
  if negb (has_http_prefix link) then u "https://" ++ link else link.

(** The document [save_link] builds from the stripped text: [link_data]. *)
Definition link_data (uid : Z) (now : Z) (message_text : str) : LinkData :=
  let parts := split (strip message_text) in
  {| user_id := uid;
     link := add_scheme (nth 1 parts []);
     tags := extract_tags (skipn 2 parts);
     created_at := now |}.

(** [save_link]: the new collection and the replies. [uid] is
    [update.effective_user.id], [now] is [datetime.utcnow()]. *)
Definition save_link {py : Urllib} (db : Collection) (uid : Z) (now : Z)
    (message_text : str) : Collection * list str :=
  let text := strip message_text in
  if length (split text) <? 2 then (db, [SAVE_USAGE])
  else
    let parts := split text in
    let link := nth 1 parts [] in
    let tags := extract_tags (skipn 2 parts) in
    let link := add_scheme link in
    match urlparse link with
    | ValueError => (db, [INVALID_URL])
    | Parsed result =>
        match netloc result with
        | [] => (db, [INVALID_URL])
        | _ =>
            let link_data :=
              {| user_id := uid; link := link; tags := tags;
                 created_at := now |} in
            (insert_one db link_data,
             [u "Link saved successfully with tags: "
              ++ match tags with
                 | [] => u "no tags"
                 | _ => join (u ", ") tags
                 end])
        end
    end.

(** [f' [{", ".join(link["tags"])}]' if link['tags'] else ''] *)
Definition format_tags (d : LinkData) : str :=
  match tags d with
  | [] => []
  | _ => u " [" ++ join (u ", ") (tags d) ++ u "]"
  end.

(** The line of one document: [f'• {link["link"]}{tags}\n'] *)
Definition format_link (d : LinkData) : str :=
  [BULLET] ++ u " " ++ link d ++ format_tags d ++ [NEWLINE].

(** [message] after the loop over [links]. *)
Definition append_links (message : str) (links : list LinkData) : str :=
  fold_left (fun m d => m ++ format_link d) links message.

(** [[message[i:i+4000] for i in range(0, len(message), 4000)]] *)
Definition chunks (message : str) : list str :=
  map (fun i => slice message i (i + CHUNK))
      (range_step (length message) CHUNK).

(** The message [list_links] builds for a non-empty [links]. *)
Definition list_message (links : list LinkData) : str :=
  append_links (u "Your saved links:" ++ [NEWLINE; NEWLINE]) links.

(** [list_links]: the replies, in the order they are sent. *)
Definition list_links (db : Collection) (uid : Z) : list str :=
  let links := find_user db uid in
  match links with
  | [] => [NO_LINKS]
  | _ =>
      let message := list_message links in
      if CHUNK <? length message then chunks message else [message]
  end.

(** [show_tags] *)
Definition show_tags (db : Collection) (uid : Z) : list str :=
  let user_links := find_user db uid in
  let tags := fold_left (fun s d => set_update s (tags d)) user_links [] in
  match tags with
  | [] => [NO_TAGS]
  | _ => [u "Your tags:" ++ [NEWLINE] ++ join (u ", ") (sorted tags)]
  end.

(** The tag [find_by_tag] searches for: [context.args[0].replace('#', '')] *)
Definition find_tag (arg0 : str) : str := replace HASH [] arg0.

(** The message [find_by_tag] builds for a non-empty [found]. *)
Definition find_message (tag : str) (found : list LinkData) : str :=
  append_links
    (u "Links tagged with #" ++ tag ++ u ":" ++ [NEWLINE; NEWLINE]) found.

(** [find_by_tag]; [args] is [context.args]. *)
Definition find_by_tag (db : Collection) (uid : Z) (args : list str)
  : list str :=
  match args with
  | [] => [FIND_USAGE]
  | arg0 :: _ =>
      let tag := find_tag arg0 in
      let found_links := find_user_tag db uid tag in
      match found_links with
      | [] => [u "No links found with tag #" ++ tag]
      | _ => [find_message tag found_links]
      end
  end.

(** The set [tags] that [show_tags] collects from the caller's documents. *)
Definition user_tags (db : Collection) (uid : Z) : list str :=
  fold_left (fun s d => set_update s (tags d)) (find_user db uid) [].

(** [url] without tab, CR and LF, as [urlsplit] cleans it. *)
Definition remove_unsafe (url : str) : str :=
  filter (fun c => negb (N.eqb c 9 || N.eqb c 10 || N.eqb c 13)) url.

(** The network location [urlsplit] reads off [//r]. *)
Definition netloc_after (r : str) : str :=
  fst (splitnetloc ([47; 47]%N ++ r) 2).

(** [c] is one of the delimiters [/], [?], [#] that end a network
    location. *)
Definition is_delim (c : char) : bool :=
  N.eqb c 47 || N.eqb c 63 || N.eqb c 35.

(** [a <= b] as a proposition. *)
Definition str_le (a b : str) : Prop := str_leb a b = true.

(** Two collections in which user 1 has the tags [a] and [b], saved in
    different orders and numbers. *)
Definition DB_TAGS_1 : Collection :=
  [{| user_id := 1; link := u "https://a.example"; tags := [u "b"; u "a"];
      created_at := 0 |}].

Definition DB_TAGS_2 : Collection :=
  [{| user_id := 1; link := u "https://b.example"; tags := [u "a"];
      created_at := 0 |};
   {| user_id := 2; link := u "https://c.example"; tags := [u "z"];
      created_at := 1 |};
   {| user_id := 1; link := u "https://d.example"; tags := [u "a"; u "b"];
      created_at := 2 |}].

(** A string without whitespace characters. *)
Definition nospace (s : str) : Prop := Forall (fun c => isspace c = false) s.

(** ** Example requests and collections *)

(** The command of the specification's case-folding example. *)
Definition TEXT_AB : str := u "/save example.com #a #B".

(** A command with a bare [#] token and a [##x] token. *)
Definition TEXT_HASHES : str := u "/save example.com # ##x".

(** A command whose link names a scheme other than http and https. *)
Definition TEXT_FTP : str := u "/save ftp://example.com".

(** A command whose link is a port without a host. *)
Definition TEXT_PORT : str := u "/save :80".

(** A command whose link has an opening bracket and no closing one. *)
Definition TEXT_BRACKET : str := u "/save http://[::1".

(** The scenario's command with other whitespace around its tokens. *)
Definition TEXT_SCENARIO_SPACED : str :=
  u "  /save   www.test.com " ++ [NEWLINE] ++ u "#news" ++ [9%N]
  ++ u "#tech  ".

(** A command that saves again the link the scenario stored. *)
Definition TEXT_RESAVE : str := u "/save https://www.test.com #again".

(** A command whose first argument is a tag. *)
Definition TEXT_TAG_FIRST : str := u "/save #news".

(** A command whose tag ends in [#]. *)
Definition TEXT_CSHARP : str := u "/save https://example.com #c#".

(** The command of the specification's scenario. *)
Definition TEXT_SCENARIO : str := u "/save www.test.com #news #tech".

Definition DOC_X : LinkData :=
  {| user_id := 1;
     link := u "https://example.com/articles/2024/a-rather-long-title";
     tags := [u "x"];
     created_at := 0 |}.

(** The collection after user 1 saved the same link a hundred times. *)
Definition DB_HUNDRED : Collection := repeat DOC_X 100.

(** ** Strings and lists: basic facts *)

Definition str_eq_dec : forall a b : str, {a = b} + {a <> b} :=
  list_eq_dec N.eq_dec.

Lemma str_eqb_eq (a b : str) : str_eqb a b = true <-> a = b.
Proof.
  revert b; induction a as [|x a IH]; intros [|y b]; simpl;
    try (split; [discriminate | congruence]); try tauto.
  rewrite andb_true_iff, N.eqb_eq, IH.
  split; [intros [-> ->]; reflexivity | intros E; inversion E; auto].
Qed.

Lemma str_in_In (x : str) (l : list str) : str_in x l = true <-> In x l.
Proof.
  unfold str_in; rewrite existsb_exists; split.
  - intros (y & Hy & E); apply str_eqb_eq in E; subst; exact Hy.
  - intros Hx; exists x; split; [exact Hx | now apply str_eqb_eq].
Qed.

Lemma startswith_hash (w : str) :
  startswith [HASH] w = true <-> exists t, w = HASH :: t.
Proof.
  destruct w as [|c t]; cbn [startswith].
  - split; [discriminate | intros (t & E); discriminate].
  - rewrite andb_true_r, N.eqb_eq; split.
    + intros <-; exists t; reflexivity.
    + intros (t' & E); inversion E; reflexivity.
Qed.

Lemma app_one_neq (A : Type) (l : list A) (x : A) : l ++ [x] <> l.
Proof.
  intros E; apply (f_equal (@length A)) in E.
  rewrite length_app in E; simpl in E; lia.
Qed.

(** ** [strip] does not change the tokens *)

Lemma split_from_lstrip (s : str) :
  split_from [] (dropwhile isspace s) = split_from [] s.
Proof.
  induction s as [|c s IH]; [reflexivity|].
  cbn [dropwhile split_from]; destruct (isspace c) eqn:Hc; [exact IH|].
  cbn [split_from]; now rewrite Hc.
Qed.

Lemma split_from_spaces (cur ws : str) :
  forallb isspace ws = true -> split_from cur ws = split_from cur [].
Proof.
  revert cur; induction ws as [|w ws IH]; intros cur Hws; [reflexivity|].
  cbn [forallb] in Hws; apply andb_true_iff in Hws; destruct Hws as (Hw & Hws).
  cbn [split_from]; rewrite Hw.
  destruct cur as [|c cur]; rewrite (IH [] Hws); reflexivity.
Qed.

Lemma split_from_app_spaces (cur s ws : str) :
  forallb isspace ws = true -> split_from cur (s ++ ws) = split_from cur s.
Proof.
  intros Hws; revert cur; induction s as [|c s IH]; intros cur.
  - now apply split_from_spaces.
  - cbn [app split_from]; destruct (isspace c); [|apply IH].
    destruct cur; now rewrite IH.
Qed.

Lemma dropwhile_prefix (p : char -> bool) (l : str) :
  exists ws, forallb p ws = true /\ l = ws ++ dropwhile p l.
Proof.
  induction l as [|c l (ws & Hws & E)]; [exists []; split; reflexivity|].
  cbn [dropwhile]; destruct (p c) eqn:Hc.
  - exists (c :: ws); split; [cbn [forallb]; now rewrite Hc | cbn [app]; now f_equal].
  - exists []; split; reflexivity.
Qed.

Lemma split_strip (s : str) : split (strip s) = split s.
Proof.
  unfold split, strip, rstrip, lstrip.
  rewrite <- (split_from_lstrip s).
  destruct (dropwhile_prefix isspace (rev (dropwhile isspace s)))
    as (ws & Hws & E).
  apply (f_equal (@rev char)) in E; rewrite rev_involutive, rev_app_distr in E.
  rewrite E at 2; symmetry; apply split_from_app_spaces.
  rewrite forallb_forall in *; intros c Hc; apply Hws; now apply in_rev.
Qed.

(** ** Tag extraction *)

Lemma extract_tags_cons (w : str) (ws : list str) :
  extract_tags (w :: ws) =
  match w with
  | c :: t => if N.eqb HASH c then t :: extract_tags ws else extract_tags ws
  | [] => extract_tags ws
  end.
Proof.
  unfold extract_tags; cbn [filter].
  destruct w as [|c t]; cbn [startswith]; [reflexivity|].
  rewrite andb_true_r; destruct (N.eqb HASH c); reflexivity.
Qed.

Lemma extract_tags_In (ws : list str) (t : str) :
  In t (extract_tags ws) <-> In (HASH :: t) ws.
Proof.
  induction ws as [|w ws IH]; [simpl; tauto|].
  rewrite extract_tags_cons; destruct w as [|c w'].
  - rewrite IH; simpl; split; [auto | intros [E|E]; [discriminate | exact E]].
  - destruct (N.eqb_spec HASH c) as [<-|Hc]; simpl; rewrite IH.
    + split; (intros [E|E]; [left; congruence | right; exact E]).
    + split; [auto | intros [E|E]; [congruence | exact E]].
Qed.

Lemma extract_tags_rehash (ws : list str) :
  map (cons HASH) (extract_tags ws) = filter (startswith [HASH]) ws.
Proof.
  induction ws as [|w ws IH]; [reflexivity|].
  rewrite extract_tags_cons; cbn [filter]; destruct w as [|c w'].
  - exact IH.
  - cbn [startswith]; rewrite andb_true_r.
    destruct (N.eqb_spec HASH c) as [<-|Hc]; cbn [map]; rewrite IH; reflexivity.
Qed.

Lemma extract_tags_count (ws : list str) (t : str) :
  count_occ str_eq_dec (extract_tags ws) t =
  count_occ str_eq_dec ws (HASH :: t).
Proof.
  induction ws as [|w ws IH]; [reflexivity|].
  rewrite extract_tags_cons; destruct w as [|c w'].
  - rewrite count_occ_cons_neq by discriminate; exact IH.
  - destruct (N.eqb_spec HASH c) as [<-|Hc].
    + destruct (str_eq_dec w' t) as [->|Ht].
      * rewrite !count_occ_cons_eq by reflexivity; f_equal; exact IH.
      * rewrite !count_occ_cons_neq by congruence; exact IH.
    + rewrite count_occ_cons_neq by congruence; exact IH.
Qed.

(** ** The three outcomes of [save_link] *)

Section SaveLink.
Context {py : Urllib}.
Variables (db : Collection) (uid now : Z) (text : str).

Local Abbreviation parts := (split (strip text)).
Local Abbreviation url := (add_scheme (nth 1 parts [])).

Lemma save_link_usage :
  length parts < 2 -> save_link db uid now text = (db, [SAVE_USAGE]).
Proof.
  intros Hlt; unfold save_link.
  apply Nat.ltb_lt in Hlt; rewrite Hlt; reflexivity.
Qed.

Lemma save_link_value_error :
  2 <= length parts -> urlparse url = ValueError ->
  save_link db uid now text = (db, [INVALID_URL]).
Proof.
  intros Hge HE; unfold save_link.
  apply Nat.ltb_ge in Hge; rewrite Hge, HE; reflexivity.
Qed.

Lemma save_link_no_netloc (res : ParseResult) :
  2 <= length parts -> urlparse url = Parsed res -> netloc res = [] ->
  save_link db uid now text = (db, [INVALID_URL]).
Proof.
  intros Hge HE Hn; unfold save_link.
  apply Nat.ltb_ge in Hge; rewrite Hge, HE, Hn; reflexivity.
Qed.

Lemma save_link_insert (res : ParseResult) :
  2 <= length parts -> urlparse url = Parsed res -> netloc res <> [] ->
  fst (save_link db uid now text) = db ++ [link_data uid now text].
Proof.
  intros Hge HE Hn; unfold save_link.
  apply Nat.ltb_ge in Hge; rewrite Hge, HE.
  destruct (netloc res); [congruence | reflexivity].
Qed.

(** A document was inserted exactly in the third outcome. *)
Lemma save_link_saved (r : LinkData) :
  fst (save_link db uid now text) = db ++ [r] ->
  r = link_data uid now text /\ 2 <= length parts /\
  exists res, urlparse url = Parsed res /\ netloc res <> [].
Proof.
  intros Hr.
  destruct (Nat.lt_ge_cases (length parts) 2) as [Hlt|Hge].
  { rewrite (save_link_usage Hlt) in Hr; simpl in Hr.
    symmetry in Hr; now apply app_one_neq in Hr. }
  destruct (urlparse url) as [res|] eqn:HE.
  2:{ rewrite (save_link_value_error Hge HE) in Hr; simpl in Hr.
      symmetry in Hr; now apply app_one_neq in Hr. }
  destruct (netloc res) as [|c nl] eqn:Hn.
  { rewrite (save_link_no_netloc Hge HE Hn) in Hr; simpl in Hr.
    symmetry in Hr; now apply app_one_neq in Hr. }
  assert (Hne : netloc res <> []) by (rewrite Hn; discriminate).
  rewrite (save_link_insert Hge HE Hne) in Hr.
  apply app_inv_head in Hr; injection Hr as <-.
  split; [reflexivity | split; [exact Hge | exists res; split; [reflexivity | exact Hne]]].
Qed.

(** Whatever the outcome, the collection is unchanged or one document of
    the caller longer. *)
Lemma save_link_store :
  fst (save_link db uid now text) = db \/
  fst (save_link db uid now text) = db ++ [link_data uid now text].
Proof.
  destruct (Nat.lt_ge_cases (length parts) 2) as [Hlt|Hge].
  { left; now rewrite (save_link_usage Hlt). }
  destruct (urlparse url) as [res|] eqn:HE.
  2:{ left; now rewrite (save_link_value_error Hge HE). }
  destruct (netloc res) as [|c nl] eqn:Hn.
  { left; now rewrite (save_link_no_netloc Hge HE Hn). }
  right; apply (save_link_insert Hge HE); rewrite Hn; discriminate.
Qed.

End SaveLink.

(** ** The scheme of a saved link *)

Lemma startswith_app (p s : str) :
  startswith p s = true <-> exists rest, s = p ++ rest.
Proof.
  revert s; induction p as [|a p IH]; intros s.
  - split; [intros _; exists s; reflexivity | reflexivity].
  - destruct s as [|b s]; cbn [startswith].
    + split; [discriminate | intros (rest & E); discriminate].
    + rewrite andb_true_iff, N.eqb_eq, IH; split.
      * intros (-> & rest & ->); exists rest; reflexivity.
      * intros (rest & E); injection E as -> ->; split; [reflexivity | now exists rest].
Qed.

Lemma split_scheme_http (r : str) :
  split_scheme (u "http:" ++ r) = (u "http", r).
Proof. reflexivity. Qed.

Lemma split_scheme_https (r : str) :
  split_scheme (u "https:" ++ r) = (u "https", r).
Proof. reflexivity. Qed.

Lemma urlparse_http {py : Urllib} (rest : str) (res : ParseResult) :
  urlparse (u "http://" ++ rest) = Parsed res -> scheme res = u "http".
Proof.
  unfold urlparse.
  change (u "http://") with [104; 116; 116; 112; 58; 47; 47]%N.
  cbn [app dropwhile filter N.leb N.eqb negb orb Pos.eqb N.compare
       Pos.compare Pos.compare_cont].
  match goal with
  | |- context [split_scheme (_ :: _ :: _ :: _ :: _ :: ?r)] =>
      change (split_scheme (104 :: 116 :: 116 :: 112 :: 58 :: r)%N)
        with (split_scheme (u "http:" ++ r));
      rewrite split_scheme_http
  end.
  destruct (netloc_raises _); [discriminate|].
  intros E; injection E as <-; reflexivity.
Qed.

Lemma urlparse_https {py : Urllib} (rest : str) (res : ParseResult) :
  urlparse (u "https://" ++ rest) = Parsed res -> scheme res = u "https".
Proof.
  unfold urlparse.
  change (u "https://") with [104; 116; 116; 112; 115; 58; 47; 47]%N.
  cbn [app dropwhile filter N.leb N.eqb negb orb Pos.eqb N.compare
       Pos.compare Pos.compare_cont].
  match goal with
  | |- context [split_scheme (_ :: _ :: _ :: _ :: _ :: _ :: ?r)] =>
      change (split_scheme (104 :: 116 :: 116 :: 112 :: 115 :: 58 :: r)%N)
        with (split_scheme (u "https:" ++ r));
      rewrite split_scheme_https
  end.
  destruct (netloc_raises _); [discriminate|].
  intros E; injection E as <-; reflexivity.
Qed.

Lemma add_scheme_prefix (l : str) : has_http_prefix (add_scheme l) = true.
Proof.
  unfold add_scheme.
  destruct (has_http_prefix l) eqn:E; cbn [negb]; [exact E|].
  unfold has_http_prefix, startswith_any; cbn [existsb].
  apply orb_true_iff; right; apply orb_true_iff; left.
  apply startswith_app; exists l; reflexivity.
Qed.

Lemma urlparse_scheme {py : Urllib} (l : str) (res : ParseResult) :
  has_http_prefix l = true -> urlparse l = Parsed res ->
  scheme res = u "http" \/ scheme res = u "https".
Proof.
  unfold has_http_prefix, startswith_any; cbn [existsb].
  rewrite orb_false_r, orb_true_iff, !startswith_app.
  intros [(rest & ->)|(rest & ->)] E.
  - left; exact (urlparse_http _ E).
  - right; exact (urlparse_https _ E).
Qed.

(** ** Splitting a message into slices of a fixed size *)

Lemma firstn_plus (A : Type) (a b : nat) (l : list A) :
  firstn (a + b) l = firstn a l ++ firstn b (skipn a l).
Proof.
  revert l; induction a as [|a IH]; intros l; [reflexivity|].
  destruct l as [|x l]; cbn [Nat.add firstn skipn app].
  - now rewrite firstn_nil.
  - now rewrite IH.
Qed.

Section Slices.
Variable n : nat.
Hypothesis n_pos : 0 < n.

Lemma slice_step (s : str) (i : nat) :
  slice s i (i + n) = firstn n (skipn i s).
Proof. clear n_pos; unfold slice; f_equal; lia. Qed.

Lemma slice_step_length (s : str) (i : nat) : length (slice s i (i + n)) <= n.
Proof. clear n_pos; rewrite slice_step; apply firstn_le_length. Qed.

Lemma concat_slices (s : str) (m : nat) :
  concat (map (fun i => slice s i (i + n)) (map (fun k => k * n) (seq 0 m)))
  = firstn (m * n) s.
Proof.
  clear n_pos; induction m as [|m IH]; [reflexivity|].
  rewrite seq_S, !map_app, concat_app, IH; cbn [Nat.add map concat].
  rewrite app_nil_r, slice_step.
  replace (S m * n) with (m * n + n) by lia.
  symmetry; apply firstn_plus.
Qed.

Lemma range_step_covers (len : nat) : len <= (len + n - 1) / n * n.
Proof.
  pose proof (Nat.div_mod_eq (len + n - 1) n) as E.
  pose proof (Nat.mod_upper_bound (len + n - 1) n) as B.
  rewrite (Nat.mul_comm _ n); lia.
Qed.

Lemma range_step_two (len : nat) : n < len -> 2 <= (len + n - 1) / n.
Proof. intros H; apply Nat.div_le_lower_bound; lia. Qed.

Lemma range_step_length (len : nat) :
  length (range_step len n) = (len + n - 1) / n.
Proof. clear n_pos; unfold range_step; now rewrite length_map, length_seq. Qed.

Lemma concat_range_slices (s : str) :
  concat (map (fun i => slice s i (i + n)) (range_step (length s) n)) = s.
Proof.
  unfold range_step; rewrite concat_slices.
  apply firstn_all2, range_step_covers.
Qed.

End Slices.

Lemma CHUNK_pos : 0 < CHUNK.
Proof. apply Nat.ltb_lt; vm_compute; reflexivity. Qed.

Lemma chunks_concat (message : str) : concat (chunks message) = message.
Proof. unfold chunks; apply concat_range_slices, CHUNK_pos. Qed.

Lemma chunks_bounded (message : str) :
  Forall (fun r => length r <= CHUNK) (chunks message).
Proof.
  unfold chunks; apply Forall_forall; intros r Hr.
  apply in_map_iff in Hr; destruct Hr as (i & <- & _).
  apply slice_step_length.
Qed.

Lemma chunks_two (message : str) :
  CHUNK < length message -> 2 <= length (chunks message).
Proof.
  intros H; unfold chunks; rewrite length_map, range_step_length.
  apply range_step_two; [apply CHUNK_pos | exact H].
Qed.

Lemma list_message_nil_short : length (list_message []) <= CHUNK.
Proof. apply Nat.leb_le; vm_compute; reflexivity. Qed.

(** ** Reading the collection *)

Lemma find_user_app (db1 db2 : Collection) (uid : Z) :
  find_user (db1 ++ db2) uid = find_user db1 uid ++ find_user db2 uid.
Proof. apply filter_app. Qed.

Lemma find_user_tag_app (db1 db2 : Collection) (uid : Z) (tag : str) :
  find_user_tag (db1 ++ db2) uid tag
  = find_user_tag db1 uid tag ++ find_user_tag db2 uid tag.
Proof. apply filter_app. Qed.

Lemma find_user_tag_filter (db : Collection) (uid : Z) (tag : str) :
  find_user_tag db uid tag
  = filter (fun d => str_in tag (tags d)) (find_user db uid).
Proof.
  unfold find_user_tag, find_user.
  induction db as [|d db IH]; [reflexivity|].
  cbn [filter]; destruct (Z.eqb (user_id d) uid); cbn [andb filter].
  - now rewrite IH.
  - exact IH.
Qed.

Lemma find_user_other {py : Urllib} (db : Collection) (a b : Z) (now : Z)
    (text : str) :
  a <> b -> find_user (fst (save_link db a now text)) b = find_user db b.
Proof.
  intros Hab; destruct (save_link_store db a now text) as [-> | ->];
    [reflexivity|].
  rewrite find_user_app; unfold find_user at 2; cbn [filter link_data user_id].
  apply Z.eqb_neq in Hab; rewrite Hab; apply app_nil_r.
Qed.

Lemma find_user_tag_other {py : Urllib} (db : Collection) (a b : Z) (now : Z)
    (text tag : str) :
  a <> b ->
  find_user_tag (fst (save_link db a now text)) b tag = find_user_tag db b tag.
Proof.
  intros Hab; rewrite !find_user_tag_filter, find_user_other by exact Hab.
  reflexivity.
Qed.

(** * The claims *)

(** ** /save: the tags *)

(** C1 (as amended): after a successful /save the stored tags are exactly
    the tokens after the link token that start with '#', with that one
    leading '#' removed and the case of the letters kept; tokens that do
    not start with '#' contribute nothing.  In particular
    [/save example.com #a #B] stores the link [https://example.com] with
    the tags [a] and [B]. *)
Theorem save_link_tags_exact {py : Urllib} (db : Collection) (uid now : Z)
    (text : str) (r : LinkData) :
  (fst (save_link db uid now text) = db ++ [r] ->
   forall t, In t (tags r) <-> In (HASH :: t) (skipn 2 (split text)))
  /\ fst (save_link db uid now TEXT_AB)
     = db ++ [{| user_id := uid; link := u "https://example.com";
                 tags := [u "a"; u "B"]; created_at := now |}].
Proof.
  split.
  - intros Hr t; apply save_link_saved in Hr; destruct Hr as (-> & _ & _).
    rewrite <- (split_strip text); apply extract_tags_In.
  - assert (E : exists res, urlparse (add_scheme (nth 1 (split (strip TEXT_AB)) []))
                            = Parsed res /\ netloc res <> []).
    { eexists; split; [vm_compute; reflexivity | discriminate]. }
    destruct E as (res & E & Hn).
    rewrite (save_link_insert db uid now TEXT_AB (res := res));
      [reflexivity | vm_compute; lia | exact E | exact Hn].
Qed.

Lemma save_link_tags_exact_witness :
  fst (save_link (py := urllib_plain) [] 1 0 TEXT_AB)
  = [{| user_id := 1; link := u "https://example.com";
        tags := [u "a"; u "B"]; created_at := 0 |}]
  /\ forall t, In t [u "a"; u "B"] <->
               In (HASH :: t) (skipn 2 (split TEXT_AB)).
Proof.
  split; [vm_compute; reflexivity|].
  apply (proj1 (@save_link_tags_exact urllib_plain [] 1%Z 0%Z TEXT_AB
                  {| user_id := 1; link := u "https://example.com";
                     tags := [u "a"; u "B"]; created_at := 0 |})).
  vm_compute; reflexivity.
Defined.

(** C1 as stated fails: the tag [#B] is stored as [B], not as [b]. *)
Lemma save_link_tags_keep_case :
  exists r,
    fst (save_link (py := urllib_plain) [] 1 0 TEXT_AB) = [r]
    /\ tags r = [u "a"; u "B"] /\ ~ In (u "b") (tags r).
Proof.
  eexists; split; [vm_compute; reflexivity|].
  split; [reflexivity|].
  cbn; intros [H|[H|[]]]; discriminate.
Qed.

(** C4 (as amended): after a successful /save every stored tag [t] comes
    from a token [#t] after the link token, with its one leading '#'
    removed; when none of those tokens is the bare [#], no stored tag is
    empty, and when none of them starts with [##], no stored tag starts
    with '#'. *)
Theorem save_link_tags_shape {py : Urllib} (db : Collection) (uid now : Z)
    (text : str) (r : LinkData) :
  fst (save_link db uid now text) = db ++ [r] ->
  let words := skipn 2 (split text) in
  Forall (fun t => In (HASH :: t) words) (tags r)
  /\ (~ In [HASH] words -> Forall (fun t => t <> []) (tags r))
  /\ ((forall w, In w words -> startswith [HASH; HASH] w = false) ->
      Forall (fun t => startswith [HASH] t = false) (tags r)).
Proof.
  rewrite <- (split_strip text); intros Hr words.
  apply save_link_saved in Hr; destruct Hr as (-> & _ & _).
  cbn [tags link_data]; fold words.
  split; [|split].
  - apply Forall_forall; intros t Ht; now apply extract_tags_In.
  - intros Hbare; apply Forall_forall; intros t Ht ->.
    now apply Hbare, extract_tags_In.
  - intros Hdouble; apply Forall_forall; intros t Ht.
    destruct (startswith [HASH] t) eqn:Hs; [|reflexivity].
    apply startswith_hash in Hs; destruct Hs as (t' & ->).
    apply extract_tags_In, Hdouble in Ht.
    cbn [startswith] in Ht; rewrite !N.eqb_refl in Ht; discriminate.
Qed.

Lemma save_link_tags_shape_witness :
  Forall (fun t => t <> []) [u "a"; u "B"]
  /\ Forall (fun t => startswith [HASH] t = false) [u "a"; u "B"].
Proof.
  destruct (@save_link_tags_shape urllib_plain [] 1%Z 0%Z TEXT_AB
              {| user_id := 1; link := u "https://example.com";
                 tags := [u "a"; u "B"]; created_at := 0 |})
    as (_ & Hbare & Hdouble); [vm_compute; reflexivity|].
  split.
  - apply Hbare; vm_compute; intros [H|[H|[]]]; discriminate.
  - apply Hdouble; intros w [<-|[<-|[]]]; reflexivity.
Defined.

(** C4 as stated fails: [/save example.com # ##x] succeeds and stores the
    empty tag and the tag [#x]. *)
Lemma save_link_tags_empty_and_hashed :
  exists r,
    fst (save_link (py := urllib_plain) [] 1 0 TEXT_HASHES) = [r]
    /\ tags r = [[]; u "#x"]
    /\ In [] (tags r)
    /\ (exists t, In t (tags r) /\ startswith [HASH] t = true).
Proof.
  eexists; split; [vm_compute; reflexivity|].
  split; [reflexivity|].
  split; [left; reflexivity|].
  exists (u "#x"); split; [right; left; reflexivity | reflexivity].
Qed.

(** C10: after a successful /save the stored tags are the '#'-tokens after
    the link token, in the order of the command and each as often as it
    occurs there, with one leading '#' removed: putting the '#' back gives
    the subsequence of '#'-tokens, and a tag is stored as many times as
    its token occurs. *)
Theorem save_link_tags_ordered {py : Urllib} (db : Collection) (uid now : Z)
    (text : str) (r : LinkData) :
  fst (save_link db uid now text) = db ++ [r] ->
  let words := skipn 2 (split text) in
  map (cons HASH) (tags r) = filter (startswith [HASH]) words
  /\ forall t, count_occ str_eq_dec (tags r) t
               = count_occ str_eq_dec words (HASH :: t).
Proof.
  rewrite <- (split_strip text); intros Hr words.
  apply save_link_saved in Hr; destruct Hr as (-> & _ & _).
  split; [apply extract_tags_rehash | intros t; apply extract_tags_count].
Qed.

Lemma save_link_tags_ordered_witness :
  let text := u "/save example.com #b note #a #b" in
  let words := skipn 2 (split text) in
  map (cons HASH) [u "b"; u "a"; u "b"] = filter (startswith [HASH]) words
  /\ forall t, count_occ str_eq_dec [u "b"; u "a"; u "b"] t
               = count_occ str_eq_dec words (HASH :: t).
Proof.
  apply (@save_link_tags_ordered urllib_plain [] 1%Z 0%Z
           (u "/save example.com #b note #a #b")
           {| user_id := 1; link := u "https://example.com";
              tags := [u "b"; u "a"; u "b"]; created_at := 0 |}).
  vm_compute; reflexivity.
Defined.

(** ** /save: the link *)

(** C5: the code breaks the rule in two places.  The token
    [ftp://example.com] names the scheme [ftp], and yet [https://] is put
    before it: the link saved is [https://ftp://example.com], whose network
    location is [ftp:].  And [/save :80] is not rejected: the link
    [https://:80] is saved although its network location [:80] has no host
    name.  Both hold whatever the interpreter's further checks are. *)
Theorem save_link_url_defects {py : Urllib} :
  (exists res,
      urlparse (u "ftp://example.com") = Parsed res
      /\ scheme res = u "ftp" /\ netloc res = u "example.com")
  /\ (exists r res,
        fst (save_link [] 1 0 TEXT_FTP) = [r]
        /\ link r = u "https://ftp://example.com"
        /\ link r <> u "ftp://example.com"
        /\ urlparse (link r) = Parsed res
        /\ netloc res = u "ftp:")
  /\ (exists r res,
        fst (save_link [] 1 0 TEXT_PORT) = [r]
        /\ snd (save_link [] 1 0 TEXT_PORT) <> [INVALID_URL]
        /\ link r = u "https://:80"
        /\ urlparse (link r) = Parsed res
        /\ netloc res = u ":80"
        /\ hostinfo_hostname (netloc res) = []).
Proof.
  split; [|split].
  - eexists; split; [vm_compute; reflexivity|].
    split; reflexivity.
  - eexists; eexists; split; [vm_compute; reflexivity|].
    split; [reflexivity|].
    split; [discriminate|].
    split; [vm_compute; reflexivity | reflexivity].
  - eexists; eexists; split; [vm_compute; reflexivity|].
    split; [vm_compute; discriminate|].
    split; [reflexivity|].
    split; [vm_compute; reflexivity|].
    split; reflexivity.
Qed.

(** C9: a /save whose text has fewer than two whitespace-separated tokens
    is answered with the usage message, which names the format
    [/save <link> #tag1 #tag2], and leaves the collection unchanged. *)
Theorem save_link_missing_argument {py : Urllib} (db : Collection)
    (uid now : Z) (text : str) :
  length (split text) < 2 ->
  save_link db uid now text = (db, [SAVE_USAGE])
  /\ exists head, SAVE_USAGE = head ++ u "Format: /save <link> #tag1 #tag2".
Proof.
  rewrite <- (split_strip text); intros Hlt.
  split; [now apply save_link_usage|].
  eexists; unfold SAVE_USAGE; rewrite app_assoc; reflexivity.
Qed.

Lemma save_link_missing_argument_witness :
  save_link (py := urllib_plain) [DOC_X] 2 0 (u "/save") = ([DOC_X], [SAVE_USAGE])
  /\ exists head, SAVE_USAGE = head ++ u "Format: /save <link> #tag1 #tag2".
Proof.
  apply (@save_link_missing_argument urllib_plain [DOC_X] 2%Z 0%Z (u "/save")).
  vm_compute; lia.
Defined.

(** ** Reading *)

(** C6: for every owner and tag, the documents found by owner and tag are
    exactly the subsequence of the owner's documents whose tags contain
    the tag, compared by equality of strings (so case-sensitively). *)
Theorem find_user_tag_subsequence (db : Collection) (uid : Z) (tag : str) :
  find_user_tag db uid tag
  = filter (fun d => if in_dec str_eq_dec tag (tags d) then true else false)
           (find_user db uid)
  /\ forall d, In d (find_user_tag db uid tag) <->
               In d (find_user db uid) /\ In tag (tags d).
Proof.
  assert (E : forall l : list LinkData,
             filter (fun d => str_in tag (tags d)) l
             = filter (fun d => if in_dec str_eq_dec tag (tags d)
                                then true else false) l).
  { intros l; apply filter_ext; intros d.
    destruct (in_dec str_eq_dec tag (tags d)) as [Hi|Hn].
    - now apply str_in_In.
    - destruct (str_in tag (tags d)) eqn:Hs; [|reflexivity].
      apply str_in_In in Hs; contradiction. }
  split.
  - rewrite find_user_tag_filter; apply E.
  - intros d; rewrite find_user_tag_filter, filter_In, str_in_In; tauto.
Qed.

(** C8: when owner A differs from owner B, a /save by A (whatever its
    outcome) leaves B's replies to /list, /tags and /find as they were; in
    particular B, having no documents, is still told that no links are
    saved. *)
Theorem save_link_noninterference {py : Urllib} (db : Collection)
    (a b : Z) (now : Z) (text : str) (args : list str) :
  a <> b ->
  let db' := fst (save_link db a now text) in
  list_links db' b = list_links db b
  /\ show_tags db' b = show_tags db b
  /\ find_by_tag db' b args = find_by_tag db b args
  /\ (find_user db b = [] -> list_links db' b = [NO_LINKS]).
Proof.
  intros Hab db'; subst db'.
  assert (L : list_links (fst (save_link db a now text)) b = list_links db b).
  { unfold list_links; now rewrite find_user_other. }
  repeat split.
  - exact L.
  - unfold show_tags; now rewrite find_user_other.
  - unfold find_by_tag; destruct args as [|arg0 args]; [reflexivity|].
    now rewrite find_user_tag_other.
  - intros Hb; rewrite L; unfold list_links; now rewrite Hb.
Qed.

Lemma save_link_noninterference_witness :
  let db' := fst (save_link (py := urllib_plain) [] 1 0 TEXT_SCENARIO) in
  list_links db' 2 = list_links [] 2
  /\ show_tags db' 2 = show_tags [] 2
  /\ find_by_tag db' 2 [u "#news"] = find_by_tag [] 2 [u "#news"]
  /\ (find_user [] 2 = [] -> list_links db' 2 = [NO_LINKS]).
Proof.
  apply (@save_link_noninterference urllib_plain [] 1%Z 2%Z 0%Z TEXT_SCENARIO
           [u "#news"]).
  discriminate.
Defined.

(** C7: when the message of /list is longer than 4000 characters, it is
    sent as at least two replies, in order, none longer than 4000
    characters, whose concatenation is the message. *)
Theorem list_links_chunked (db : Collection) (uid : Z) :
  4000 < length (list_message (find_user db uid)) ->
  let replies := list_links db uid in
  2 <= length replies
  /\ Forall (fun r => length r <= 4000) replies
  /\ concat replies = list_message (find_user db uid).
Proof.
  change 4000 with CHUNK; intros Hlen replies; subst replies.
  unfold list_links.
  destruct (find_user db uid) as [|d links] eqn:E.
  { pose proof list_message_nil_short; lia. }
  apply Nat.ltb_lt in Hlen; rewrite Hlen; apply Nat.ltb_lt in Hlen.
  split; [now apply chunks_two|].
  split; [apply chunks_bounded | apply chunks_concat].
Qed.

Lemma list_links_chunked_witness :
  let replies := list_links DB_HUNDRED 1 in
  2 <= length replies
  /\ Forall (fun r => length r <= 4000) replies
  /\ concat replies = list_message (find_user DB_HUNDRED 1).
Proof.
  apply (@list_links_chunked DB_HUNDRED 1%Z).
  apply Nat.ltb_lt; vm_compute; reflexivity.
Defined.

(** ** /find *)

Lemma append_links_concat (message : str) (links : list LinkData) :
  append_links message links = message ++ concat (map format_link links).
Proof.
  unfold append_links; revert message.
  induction links as [|d links IH]; intros message; cbn [fold_left map concat].
  - now rewrite app_nil_r.
  - now rewrite IH, app_assoc.
Qed.

Lemma find_tag_no_hash (arg0 : str) : ~ In HASH (find_tag arg0).
Proof.
  unfold find_tag, replace; rewrite in_flat_map; intros (c & _ & Hc).
  destruct (N.eqb c HASH) eqn:E; [exact Hc|].
  apply N.eqb_neq in E; destruct Hc as [Hc|[]]; now apply E.
Qed.

(** C2: with no argument /find replies with its usage message.  With an
    argument the code removes every '#' of it, not only a leading one:
    the tag [c#], stored by [/save https://example.com #c#], is searched
    for as [c] by [/find #c#] and is not found. *)
Theorem find_by_tag_removes_every_hash :
  (forall db uid, find_by_tag db uid [] = [FIND_USAGE])
  /\ (forall arg0, ~ In HASH (find_tag arg0))
  /\ find_tag (u "#c#") = u "c"
  /\ exists r,
       fst (save_link (py := urllib_plain) [] 1 0 TEXT_CSHARP) = [r]
       /\ tags r = [u "c#"]
       /\ find_by_tag [r] 1 [u "#c#"] = [u "No links found with tag #c"].
Proof.
  split; [reflexivity|].
  split; [exact find_tag_no_hash|].
  split; [reflexivity|].
  eexists; split; [vm_compute; reflexivity|].
  split; reflexivity.
Qed.

(** C3: /find formats each match as /list does, after a heading of its
    own, but always sends one reply: for the hundred matches of
    [DB_HUNDRED] the single reply is longer than 4000 characters, where
    /list sends the same documents in two replies. *)
Theorem find_by_tag_not_chunked :
  (forall db uid args, length (find_by_tag db uid args) = 1)
  /\ (forall tag found,
        find_message tag found
        = u "Links tagged with #" ++ tag ++ u ":" ++ [NEWLINE; NEWLINE]
          ++ concat (map format_link found))
  /\ (forall links,
        list_message links
        = u "Your saved links:" ++ [NEWLINE; NEWLINE]
          ++ concat (map format_link links))
  /\ find_by_tag DB_HUNDRED 1 [u "#x"] = [find_message (u "x") DB_HUNDRED]
  /\ 4000 < length (find_message (u "x") DB_HUNDRED)
  /\ length (list_links DB_HUNDRED 1) = 2.
Proof.
  split.
  { intros db uid [|arg0 args]; [reflexivity|].
    unfold find_by_tag; destruct (find_user_tag _ _ _); reflexivity. }
  split.
  { intros tag found; unfold find_message.
    rewrite append_links_concat, <- !app_assoc; reflexivity. }
  split.
  { intros links; unfold list_message.
    rewrite append_links_concat, <- !app_assoc; reflexivity. }
  split; [vm_compute; reflexivity|].
  split; [apply Nat.ltb_lt; vm_compute; reflexivity | vm_compute; reflexivity].
Qed.

(** * Further properties of the handlers *)

(** ** Tokens *)

Lemma split_from_tokens (s cur : str) :
  nospace cur ->
  Forall (fun tok => tok <> [] /\ nospace tok) (split_from cur s).
Proof.
  revert cur; induction s as [|c s IH]; intros cur Hcur; cbn [split_from].
  - destruct cur as [|x cur]; [constructor|].
    constructor; [|constructor]; split.
    + intros E; apply (f_equal (@length char)) in E.
      rewrite length_rev in E; discriminate.
    + now apply Forall_rev.
  - destruct (isspace c) eqn:Hc.
    + destruct cur as [|x cur]; [apply IH; constructor|].
      constructor; [|apply IH; constructor]; split.
      * intros E; apply (f_equal (@length char)) in E.
        rewrite length_rev in E; discriminate.
      * now apply Forall_rev.
    + apply IH; constructor; assumption.
Qed.

Lemma split_tokens (s tok : str) :
  In tok (split s) -> tok <> [] /\ nospace tok.
Proof.
  intros Hin.
  pose proof (split_from_tokens s (cur := []) (Forall_nil _)) as H.
  rewrite Forall_forall in H; now apply H.
Qed.

Lemma nospace_u_https : nospace (u "https://").
Proof. repeat constructor. Qed.

Lemma add_scheme_nospace (l : str) : nospace l -> nospace (add_scheme l).
Proof.
  intros Hl; unfold add_scheme; destruct (negb (has_http_prefix l)); [|exact Hl].
  apply Forall_app; split; [exact nospace_u_https | exact Hl].
Qed.

Lemma extract_tags_nospace (ws : list str) :
  Forall nospace ws -> Forall nospace (extract_tags ws).
Proof.
  induction 1 as [|w ws Hw Hws IH]; [constructor|].
  rewrite extract_tags_cons; destruct w as [|c t]; [exact IH|].
  destruct (N.eqb HASH c); [|exact IH].
  constructor; [now inversion Hw | exact IH].
Qed.

Lemma Forall_skipn_of (A : Type) (P : A -> Prop) (n : nat) (l : list A) :
  Forall P l -> Forall P (skipn n l).
Proof.
  intros H; rewrite <- (firstn_skipn n l) in H.
  now apply Forall_app in H.
Qed.

Lemma split_all_tokens (s : str) :
  Forall (fun tok => tok <> [] /\ nospace tok) (split s).
Proof. apply Forall_forall; intros tok; apply split_tokens. Qed.

(** The link token of a command with at least two tokens. *)
Lemma link_token (text : str) :
  2 <= length (split text) ->
  nth 1 (split text) [] <> [] /\ nospace (nth 1 (split text) []).
Proof.
  intros Hge; apply (@split_tokens text), nth_In; lia.
Qed.

(** X1: a saved link is not empty, and neither it nor any stored tag
    contains a whitespace character. *)
Theorem save_link_no_whitespace {py : Urllib} (db : Collection)
    (uid now : Z) (text : str) (r : LinkData) :
  fst (save_link db uid now text) = db ++ [r] ->
  link r <> [] /\ nospace (link r) /\ Forall nospace (tags r).
Proof.
  intros Hr; apply save_link_saved in Hr; destruct Hr as (-> & Hge & _).
  cbn [link tags link_data]; rewrite split_strip in *.
  destruct (link_token text Hge) as (Hne & Hns).
  split; [|split].
  - unfold add_scheme; destruct (negb (has_http_prefix _)); [discriminate | exact Hne].
  - now apply add_scheme_nospace.
  - apply extract_tags_nospace, Forall_skipn_of.
    eapply Forall_impl; [|apply split_all_tokens]; now intros tok (_ & H).
Qed.

Lemma save_link_no_whitespace_witness :
  let r := {| user_id := 1; link := u "https://www.test.com";
              tags := [u "news"; u "tech"]; created_at := 0 |} in
  link r <> [] /\ nospace (link r) /\ Forall nospace (tags r).
Proof.
  intros r.
  apply (@save_link_no_whitespace urllib_plain [] 1%Z 0%Z TEXT_SCENARIO r).
  vm_compute; reflexivity.
Defined.

(** ** The network location of a link *)

Lemma urlparse_https_eq {py : Urllib} (rest : str) :
  urlparse (u "https://" ++ rest)
  = let nl := netloc_after (remove_unsafe rest) in
    if netloc_raises nl then ValueError
    else Parsed {| scheme := u "https"; netloc := nl |}.
Proof.
  unfold urlparse.
  change (u "https://") with [104; 116; 116; 112; 115; 58; 47; 47]%N.
  cbn [app dropwhile filter N.leb N.eqb negb orb Pos.eqb N.compare
       Pos.compare Pos.compare_cont].
  match goal with
  | |- context [split_scheme (_ :: _ :: _ :: _ :: _ :: _ :: ?r)] =>
      change (split_scheme (104 :: 116 :: 116 :: 112 :: 115 :: 58 :: r)%N)
        with (split_scheme (u "https:" ++ r));
      rewrite split_scheme_https
  end.
  reflexivity.
Qed.

Lemma urlparse_http_eq {py : Urllib} (rest : str) :
  urlparse (u "http://" ++ rest)
  = let nl := netloc_after (remove_unsafe rest) in
    if netloc_raises nl then ValueError
    else Parsed {| scheme := u "http"; netloc := nl |}.
Proof.
  unfold urlparse.
  change (u "http://") with [104; 116; 116; 112; 58; 47; 47]%N.
  cbn [app dropwhile filter N.leb N.eqb negb orb Pos.eqb N.compare
       Pos.compare Pos.compare_cont].
  match goal with
  | |- context [split_scheme (_ :: _ :: _ :: _ :: _ :: ?r)] =>
      change (split_scheme (104 :: 116 :: 116 :: 112 :: 58 :: r)%N)
        with (split_scheme (u "http:" ++ r));
      rewrite split_scheme_http
  end.
  reflexivity.
Qed.

Lemma netloc_after_firstn (r : str) : exists k, netloc_after r = firstn k r.
Proof. eexists; reflexivity. Qed.

Ltac netloc_cases c rest :=
  unfold is_delim, netloc_after, splitnetloc, slice, find_char_from;
  cbn [app skipn fold_left fst length find_char];
  destruct (N.eqb c 47), (N.eqb c 63), (N.eqb c 35);
  destruct (find_char 47%N rest), (find_char 63%N rest),
    (find_char 35%N rest);
  cbn [option_map orb].

Lemma netloc_after_delim (c : char) (rest : str) :
  is_delim c = true -> netloc_after (c :: rest) = [].
Proof.
  netloc_cases c rest; intros H; try discriminate H;
    match goal with
    | |- firstn ?k _ = _ => replace k with 0 by lia
    end; reflexivity.
Qed.

Lemma netloc_after_other (c : char) (rest : str) :
  is_delim c = false -> exists k, netloc_after (c :: rest) = c :: firstn k rest.
Proof.
  netloc_cases c rest; intros H; try discriminate H;
    match goal with
    | |- exists _, firstn ?k _ = _ =>
        exists (k - 1); replace k with (S (k - 1)) at 1 by lia
    end; reflexivity.
Qed.

Lemma nospace_not_unsafe (c : char) :
  isspace c = false ->
  negb (N.eqb c 9 || N.eqb c 10 || N.eqb c 13) = true.
Proof.
  intros H.
  destruct (N.eqb_spec c 9) as [->|_]; [discriminate H|].
  destruct (N.eqb_spec c 10) as [->|_]; [discriminate H|].
  destruct (N.eqb_spec c 13) as [->|_]; [discriminate H|].
  reflexivity.
Qed.

Lemma remove_unsafe_nospace (s : str) : nospace s -> remove_unsafe s = s.
Proof.
  induction 1 as [|c s Hc Hs IH]; [reflexivity|].
  unfold remove_unsafe in *; cbn [filter].
  now rewrite (nospace_not_unsafe c Hc), IH.
Qed.

Lemma existsb_firstn_false (f : char -> bool) (k : nat) (l : str) :
  existsb f l = false -> existsb f (firstn k l) = false.
Proof.
  revert l; induction k as [|k IH]; intros [|x l]; cbn [firstn existsb];
    try reflexivity.
  intros H; apply orb_false_iff in H; destruct H as (-> & H).
  now apply IH.
Qed.

Lemma forallb_firstn_true (f : char -> bool) (k : nat) (l : str) :
  forallb f l = true -> forallb f (firstn k l) = true.
Proof.
  revert l; induction k as [|k IH]; intros [|x l]; cbn [firstn forallb];
    try reflexivity.
  intros H; apply andb_true_iff in H; destruct H as (-> & H).
  now apply IH.
Qed.

(** What [urlparse] answers for a link [p ++ body] of the bot, [p] being
    [http://] or [https://] and [body] free of whitespace. *)
Lemma urlparse_link {py : Urllib} (p body : str) :
  p = u "http://" \/ p = u "https://" -> nospace body ->
  urlparse (p ++ body)
  = if netloc_raises (netloc_after body) then ValueError
    else Parsed {| scheme := firstn (length p - 3) p;
                   netloc := netloc_after body |}.
Proof.
  intros [-> | ->] Hb.
  - rewrite urlparse_http_eq, (remove_unsafe_nospace Hb); reflexivity.
  - rewrite urlparse_https_eq, (remove_unsafe_nospace Hb); reflexivity.
Qed.

Section Validation.
Context {py : Urllib}.
Variables (db : Collection) (uid now : Z) (text : str) (p body : str).
Hypothesis two_tokens : 2 <= length (split text).
Hypothesis p_scheme : p = u "http://" \/ p = u "https://".
Hypothesis link_eq : add_scheme (nth 1 (split text) []) = p ++ body.

Lemma body_nospace : nospace body.
Proof.
  destruct (link_token text two_tokens) as (_ & Hns).
  apply add_scheme_nospace in Hns; rewrite link_eq in Hns.
  now apply Forall_app in Hns.
Qed.

Lemma save_link_rejected :
  netloc_raises (netloc_after body) = true \/ netloc_after body = [] ->
  save_link db uid now text = (db, [INVALID_URL]).
Proof.
  intros Hrej.
  pose proof (urlparse_link p_scheme body_nospace) as E.
  rewrite <- link_eq, <- (split_strip text) in E.
  assert (Hge : 2 <= length (split (strip text)))
    by (rewrite split_strip; exact two_tokens).
  destruct (netloc_raises (netloc_after body)) eqn:Hr.
  - now apply save_link_value_error.
  - destruct Hrej as [Hrej|Hn]; [discriminate Hrej|].
    now apply (save_link_no_netloc db uid now text Hge E).
Qed.

Lemma save_link_inserts :
  netloc_raises (netloc_after body) = false -> netloc_after body <> [] ->
  fst (save_link db uid now text)
  = db ++ [{| user_id := uid; link := p ++ body;
              tags := extract_tags (skipn 2 (split text));
              created_at := now |}].
Proof.
  intros Hr Hn.
  pose proof (urlparse_link p_scheme body_nospace) as E.
  rewrite Hr, <- link_eq, <- (split_strip text) in E.
  assert (Hge : 2 <= length (split (strip text)))
    by (rewrite split_strip; exact two_tokens).
  rewrite (save_link_insert db uid now text Hge E Hn).
  unfold link_data; rewrite split_strip, link_eq; reflexivity.
Qed.

End Validation.

(** ** /save: which links are accepted *)

(** X2: a /save whose link, after the optional [http://] or [https://],
    is empty or starts with [/], [?] or [#] is answered with the
    invalid-URL message and stores nothing; so [/save #news], where a tag
    stands in the place of the link, is rejected. *)
Theorem save_link_rejects_empty_netloc {py : Urllib} (db : Collection)
    (uid now : Z) (text p body : str) :
  2 <= length (split text) ->
  p = u "http://" \/ p = u "https://" ->
  add_scheme (nth 1 (split text) []) = p ++ body ->
  forallb is_delim (firstn 1 body) = true ->
  save_link db uid now text = (db, [INVALID_URL]).
Proof.
  intros Hge Hp Hlink Hd.
  apply (@save_link_rejected py db uid now text p body Hge Hp Hlink); right.
  destruct body as [|c rest]; [reflexivity|].
  cbn [firstn forallb] in Hd; rewrite andb_true_r in Hd.
  now apply netloc_after_delim.
Qed.

Lemma save_link_rejects_empty_netloc_witness :
  save_link (py := urllib_plain) [DOC_X] 1 0 TEXT_TAG_FIRST
  = ([DOC_X], [INVALID_URL]).
Proof.
  apply (@save_link_rejects_empty_netloc urllib_plain [DOC_X] 1%Z 0%Z
           TEXT_TAG_FIRST (u "https://") (u "#news")).
  - vm_compute; lia.
  - right; reflexivity.
  - vm_compute; reflexivity.
  - vm_compute; reflexivity.
Defined.

(** X3: a /save whose link, after the optional [http://] or [https://],
    starts with a character other than [/], [?], [#] and consists of ASCII
    characters without brackets is accepted: the document is appended with
    the caller as owner, the link with its scheme, and the tags. *)
Theorem save_link_accepts_plain_link {py : Urllib} (db : Collection)
    (uid now : Z) (text p body : str) :
  2 <= length (split text) ->
  p = u "http://" \/ p = u "https://" ->
  add_scheme (nth 1 (split text) []) = p ++ body ->
  forallb is_delim (firstn 1 body) = false ->
  isascii body = true -> contains 91%N body = false ->
  contains 93%N body = false ->
  fst (save_link db uid now text)
  = db ++ [{| user_id := uid; link := p ++ body;
              tags := extract_tags (skipn 2 (split text));
              created_at := now |}].
Proof.
  intros Hge Hp Hlink Hd Ha Hl Hr.
  destruct body as [|c rest]; [discriminate Hd|].
  cbn [firstn forallb] in Hd; rewrite andb_true_r in Hd.
  destruct (netloc_after_other c rest Hd) as (k & Hk).
  destruct (netloc_after_firstn (c :: rest)) as (k' & Hk').
  apply (@save_link_inserts py db uid now text p _ Hge Hp Hlink).
  - assert (Hl' : contains 91%N (netloc_after (c :: rest)) = false)
      by (rewrite Hk'; now apply existsb_firstn_false).
    assert (Hr' : contains 93%N (netloc_after (c :: rest)) = false)
      by (rewrite Hk'; now apply existsb_firstn_false).
    assert (Ha' : isascii (netloc_after (c :: rest)) = true)
      by (rewrite Hk'; now apply forallb_firstn_true).
    unfold netloc_raises; rewrite Hl', Hr', Ha'.
    cbn [andb orb negb]; now rewrite andb_false_r.
  - rewrite Hk; discriminate.
Qed.

Lemma save_link_accepts_plain_link_witness :
  fst (save_link (py := urllib_plain) [] 1 0 TEXT_SCENARIO)
  = [] ++ [{| user_id := 1; link := u "https://" ++ u "www.test.com";
              tags := extract_tags (skipn 2 (split TEXT_SCENARIO));
              created_at := 0 |}].
Proof.
  apply (@save_link_accepts_plain_link urllib_plain [] 1%Z 0%Z TEXT_SCENARIO
           (u "https://") (u "www.test.com")).
  - vm_compute; lia.
  - right; reflexivity.
  - vm_compute; reflexivity.
  - vm_compute; reflexivity.
  - vm_compute; reflexivity.
  - vm_compute; reflexivity.
  - vm_compute; reflexivity.
Defined.

(** X4: a /save whose link has, in its network location, one of the
    brackets [[] and []] without the other makes [urlparse] raise
    [ValueError]; the handler answers with the invalid-URL message and
    stores nothing. *)
Theorem save_link_rejects_lone_bracket {py : Urllib} (db : Collection)
    (uid now : Z) (text p body : str) :
  2 <= length (split text) ->
  p = u "http://" \/ p = u "https://" ->
  add_scheme (nth 1 (split text) []) = p ++ body ->
  contains 91%N (netloc_after body) <> contains 93%N (netloc_after body) ->
  save_link db uid now text = (db, [INVALID_URL]).
Proof.
  intros Hge Hp Hlink Hb.
  apply (@save_link_rejected py db uid now text p body Hge Hp Hlink); left.
  unfold netloc_raises.
  destruct (contains 91%N (netloc_after body)),
    (contains 93%N (netloc_after body)); try reflexivity; now elim Hb.
Qed.

Lemma save_link_rejects_lone_bracket_witness :
  save_link (py := urllib_plain) [DOC_X] 1 0 TEXT_BRACKET
  = ([DOC_X], [INVALID_URL]).
Proof.
  apply (@save_link_rejects_lone_bracket urllib_plain [DOC_X] 1%Z 0%Z
           TEXT_BRACKET (u "http://") (u "[::1")).
  - vm_compute; lia.
  - left; reflexivity.
  - vm_compute; reflexivity.
  - vm_compute; discriminate.
Defined.

(** ** The order of strings and [sorted] *)

Ltac ltb_cases :=
  repeat match goal with
         | H : context [N.ltb ?a ?b] |- _ => destruct (N.ltb_spec a b)
         | |- context [N.ltb ?a ?b] => destruct (N.ltb_spec a b)
         end.

Lemma str_leb_refl (a : str) : str_leb a a = true.
Proof.
  induction a as [|x a IH]; [reflexivity|]; cbn [str_leb].
  ltb_cases; try reflexivity; exact IH.
Qed.

Lemma str_leb_total (a b : str) : str_leb a b = false -> str_leb b a = true.
Proof.
  revert b; induction a as [|x a IH]; intros [|y b]; cbn [str_leb];
    try discriminate; try reflexivity.
  intros H; ltb_cases; try discriminate; try reflexivity; try lia.
  now apply IH.
Qed.

Lemma str_leb_trans (a b c : str) :
  str_leb a b = true -> str_leb b c = true -> str_leb a c = true.
Proof.
  revert b c; induction a as [|x a IH]; intros [|y b] [|z c]; cbn [str_leb];
    try discriminate; try reflexivity.
  intros H1 H2; ltb_cases; try discriminate; try reflexivity; try lia.
  now apply (IH b c).
Qed.

Lemma str_leb_antisym (a b : str) :
  str_leb a b = true -> str_leb b a = true -> a = b.
Proof.
  revert b; induction a as [|x a IH]; intros [|y b]; cbn [str_leb];
    try discriminate; try reflexivity.
  intros H1 H2; ltb_cases; try discriminate; try lia.
  f_equal; [lia | now apply IH].
Qed.

Lemma insert_sorted_In (x t : str) (l : list str) :
  In t (insert_sorted x l) <-> t = x \/ In t l.
Proof.
  induction l as [|y l IH]; cbn [insert_sorted].
  - cbn; intuition congruence.
  - destruct (str_leb x y); cbn [In]; [intuition congruence|].
    rewrite IH; intuition congruence.
Qed.

Lemma insert_sorted_sorted (x : str) (l : list str) :
  StronglySorted str_le l -> StronglySorted str_le (insert_sorted x l).
Proof.
  induction 1 as [|y l Hs IH Hy]; cbn [insert_sorted].
  - repeat constructor.
  - destruct (str_leb x y) eqn:E.
    + constructor; [now constructor|].
      constructor; [exact E|].
      eapply Forall_impl; [|exact Hy]; intros z Hz.
      exact (str_leb_trans _ _ _ E Hz).
    + constructor; [exact IH|].
      apply Forall_forall; intros z Hz; apply insert_sorted_In in Hz.
      destruct Hz as [->|Hz]; [now apply str_leb_total|].
      rewrite Forall_forall in Hy; now apply Hy.
Qed.

Lemma insert_sorted_NoDup (x : str) (l : list str) :
  ~ In x l -> NoDup l -> NoDup (insert_sorted x l).
Proof.
  induction l as [|y l IH]; intros Hx Hl; cbn [insert_sorted].
  - repeat constructor; exact Hx.
  - destruct (str_leb x y); [now constructor|].
    inversion Hl as [|? ? Hy Hl']; subst.
    constructor.
    + rewrite insert_sorted_In; intros [->|H]; [apply Hx; now left | now apply Hy].
    + apply IH; [intros H; apply Hx; now right | exact Hl'].
Qed.

Lemma sorted_In (t : str) (l : list str) : In t (sorted l) <-> In t l.
Proof.
  unfold sorted; induction l as [|x l IH]; cbn [fold_right]; [tauto|].
  rewrite insert_sorted_In, IH; cbn; intuition congruence.
Qed.

Lemma sorted_sorted (l : list str) : StronglySorted str_le (sorted l).
Proof.
  unfold sorted; induction l as [|x l IH]; cbn [fold_right];
    [constructor | now apply insert_sorted_sorted].
Qed.

Lemma sorted_NoDup (l : list str) : NoDup l -> NoDup (sorted l).
Proof.
  unfold sorted; induction 1 as [|x l Hx Hl IH]; cbn [fold_right];
    [constructor|].
  apply insert_sorted_NoDup; [|exact IH].
  intros H; apply Hx; now apply (sorted_In x l).
Qed.

(** Two strictly sorted lists with the same elements are equal. *)
Lemma sorted_unique (l1 l2 : list str) :
  StronglySorted str_le l1 -> NoDup l1 ->
  StronglySorted str_le l2 -> NoDup l2 ->
  (forall t, In t l1 <-> In t l2) -> l1 = l2.
Proof.
  intros S1; revert l2; induction S1 as [|x l1 S1 IH H1];
    intros l2 N1 S2 N2 E.
  - destruct l2 as [|y l2]; [reflexivity|].
    exfalso; apply (proj2 (E y)); now left.
  - destruct S2 as [|y l2 S2 H2].
    { exfalso; apply (proj1 (E x)); now left. }
    inversion N1 as [|? ? Nx N1']; inversion N2 as [|? ? Ny N2']; subst.
    rewrite Forall_forall in H1, H2.
    assert (Exy : x = y).
    { destruct (proj1 (E x) (or_introl eq_refl)) as [->|Hx]; [reflexivity|].
      destruct (proj2 (E y) (or_introl eq_refl)) as [->|Hy]; [reflexivity|].
      apply str_leb_antisym; [now apply H1 | now apply H2]. }
    subst y; f_equal; apply IH; try assumption.
    intros t; split; intros Ht.
    + destruct (proj1 (E t) (or_intror Ht)) as [->|H]; [contradiction | exact H].
    + destruct (proj2 (E t) (or_intror Ht)) as [->|H]; [contradiction | exact H].
Qed.

(** ** The set of tags *)

Lemma set_add_In (x t : str) (s : list str) :
  In t (set_add x s) <-> t = x \/ In t s.
Proof.
  unfold set_add; destruct (str_in x s) eqn:E.
  - apply str_in_In in E; intuition congruence.
  - rewrite in_app_iff; cbn; intuition congruence.
Qed.

Lemma set_add_NoDup (x : str) (s : list str) : NoDup s -> NoDup (set_add x s).
Proof.
  intros Hs; unfold set_add; destruct (str_in x s) eqn:E; [exact Hs|].
  apply NoDup_app; [exact Hs | repeat constructor; intros [] |].
  intros t Ht [->|[]].
  apply str_in_In in Ht; congruence.
Qed.

Lemma set_update_In (t : str) (l s : list str) :
  In t (set_update s l) <-> In t s \/ In t l.
Proof.
  unfold set_update; revert s; induction l as [|x l IH]; intros s;
    cbn [fold_left]; [cbn; tauto|].
  rewrite IH, set_add_In; cbn; intuition congruence.
Qed.

Lemma set_update_NoDup (l s : list str) : NoDup s -> NoDup (set_update s l).
Proof.
  unfold set_update; revert s; induction l as [|x l IH]; intros s Hs;
    cbn [fold_left]; [exact Hs|].
  now apply IH, set_add_NoDup.
Qed.

Lemma set_update_known (l s : list str) :
  (forall t, In t l -> In t s) -> set_update s l = s.
Proof.
  unfold set_update; induction l as [|x l IH]; intros H; cbn [fold_left];
    [reflexivity|].
  unfold set_add at 2.
  rewrite (proj2 (str_in_In x s)) by (apply H; now left).
  apply IH; intros t Ht; apply H; now right.
Qed.

Lemma collect_tags_In (t : str) (docs : list LinkData) (s : list str) :
  In t (fold_left (fun s d => set_update s (tags d)) docs s)
  <-> In t s \/ exists d, In d docs /\ In t (tags d).
Proof.
  revert s; induction docs as [|d docs IH]; intros s; cbn [fold_left].
  - split; [now left | intros [H|(d & [] & _)]; exact H].
  - rewrite IH, set_update_In; split.
    + intros [[H|H]|(d' & Hd & Ht)]; [now left | right; exists d | right; exists d'];
        cbn; auto.
    + intros [H|(d' & [<-|Hd] & Ht)]; [now left; left | now left; right |].
      right; exists d'; auto.
Qed.

Lemma collect_tags_NoDup (docs : list LinkData) (s : list str) :
  NoDup s -> NoDup (fold_left (fun s d => set_update s (tags d)) docs s).
Proof.
  revert s; induction docs as [|d docs IH]; intros s Hs; cbn [fold_left];
    [exact Hs | now apply IH, set_update_NoDup].
Qed.

Lemma user_tags_In (db : Collection) (uid : Z) (t : str) :
  In t (user_tags db uid)
  <-> exists d, In d db /\ user_id d = uid /\ In t (tags d).
Proof.
  unfold user_tags; rewrite collect_tags_In; split.
  - intros [[]|(d & Hd & Ht)]; exists d.
    unfold find_user in Hd; apply filter_In in Hd; destruct Hd as (Hd & E).
    apply Z.eqb_eq in E; auto.
  - intros (d & Hd & E & Ht); right; exists d; split; [|exact Ht].
    unfold find_user; apply filter_In; split; [exact Hd | now apply Z.eqb_eq].
Qed.

Lemma user_tags_NoDup (db : Collection) (uid : Z) : NoDup (user_tags db uid).
Proof. apply collect_tags_NoDup; constructor. Qed.

(** ** /tags *)

Lemma insert_sorted_cons (x : str) (l : list str) :
  exists y l', insert_sorted x l = y :: l'.
Proof.
  destruct l as [|z l]; cbn [insert_sorted]; [now eexists; eexists|].
  destruct (str_leb x z); now eexists; eexists.
Qed.

Lemma no_member_nil (A : Type) (l : list A) : (forall x, ~ In x l) -> l = [].
Proof.
  destruct l as [|x l]; [reflexivity|].
  intros H; exfalso; apply (H x); now left.
Qed.

Lemma show_tags_eq (db : Collection) (uid : Z) :
  show_tags db uid
  = [match sorted (user_tags db uid) with
     | [] => NO_TAGS
     | _ :: _ =>
         u "Your tags:" ++ [NEWLINE]
         ++ join (u ", ") (sorted (user_tags db uid))
     end].
Proof.
  unfold show_tags; fold (user_tags db uid).
  destruct (user_tags db uid) as [|x l]; [reflexivity|].
  unfold sorted; cbn [fold_right].
  destruct (insert_sorted_cons x (fold_right insert_sorted [] l))
    as (y & l' & ->); reflexivity.
Qed.

(** X5: the reply of /tags lists, after its heading and joined by commas,
    the tags of the caller's documents in ascending order of code points,
    each tag once, and no other string; without any tag the reply is the
    no-tags message. *)
Theorem show_tags_sorted_distinct (db : Collection) (uid : Z) :
  let ts := sorted (user_tags db uid) in
  show_tags db uid
  = [match ts with
     | [] => NO_TAGS
     | _ :: _ => u "Your tags:" ++ [NEWLINE] ++ join (u ", ") ts
     end]
  /\ StronglySorted str_le ts
  /\ NoDup ts
  /\ forall t, In t ts
               <-> exists d, In d db /\ user_id d = uid /\ In t (tags d).
Proof.
  intros ts; subst ts; split; [apply show_tags_eq|].
  split; [apply sorted_sorted|].
  split; [apply sorted_NoDup, user_tags_NoDup|].
  intros t; rewrite sorted_In; apply user_tags_In.
Qed.

(** X6: /tags replies with the no-tags message exactly when every document
    of the caller has an empty tag list (in particular when the caller has
    no document). *)
Theorem show_tags_none_iff (db : Collection) (uid : Z) :
  show_tags db uid = [NO_TAGS]
  <-> forall d, In d db -> user_id d = uid -> tags d = [].
Proof.
  rewrite show_tags_eq; split.
  - intros E d Hd Hu.
    destruct (sorted (user_tags db uid)) as [|y l] eqn:Es.
    + destruct (tags d) as [|t ts] eqn:Et; [reflexivity|].
      assert (Hin : In t (sorted (user_tags db uid))).
      { apply sorted_In, user_tags_In; exists d; rewrite Et; cbn; auto. }
      rewrite Es in Hin; destruct Hin.
    + apply (f_equal (fun l => nth 3 (hd [] l) 0%N)) in E.
      vm_compute in E; discriminate E.
  - intros H.
    rewrite (no_member_nil (sorted (user_tags db uid))); [reflexivity|].
    intros t Ht; apply sorted_In, user_tags_In in Ht.
    destruct Ht as (d & Hd & Hu & Ht); rewrite (H d Hd Hu) in Ht; exact Ht.
Qed.

Lemma show_tags_same_tags (db db' : Collection) (uid uid' : Z) :
  (forall t, In t (user_tags db uid) <-> In t (user_tags db' uid')) ->
  show_tags db uid = show_tags db' uid'.
Proof.
  intros E; rewrite !show_tags_eq.
  assert (Es : sorted (user_tags db uid) = sorted (user_tags db' uid')).
  { apply sorted_unique;
      try apply sorted_sorted; try apply sorted_NoDup, user_tags_NoDup.
    intros t; rewrite !sorted_In; apply E. }
  now rewrite Es.
Qed.

(** X7: the reply of /tags depends only on which tags the caller's
    documents carry: not on the order in which they were saved, on how
    often a tag occurs, or on the documents of other users. *)
Theorem show_tags_extensional (db db' : Collection) (uid uid' : Z) :
  (forall t,
      (exists d, In d db /\ user_id d = uid /\ In t (tags d))
      <-> (exists d, In d db' /\ user_id d = uid' /\ In t (tags d))) ->
  show_tags db uid = show_tags db' uid'.
Proof.
  intros E; apply show_tags_same_tags.
  intros t; rewrite !user_tags_In; apply E.
Qed.

Lemma show_tags_extensional_witness :
  show_tags DB_TAGS_1 1 = show_tags DB_TAGS_2 1.
Proof.
  apply (@show_tags_extensional DB_TAGS_1 DB_TAGS_2 1%Z 1%Z).
  intros t; rewrite <- !user_tags_In; vm_compute; tauto.
Defined.



(** ** /list *)

Section SliceSizes.
Variable n : nat.
Hypothesis n_pos : 0 < n.

Lemma range_step_index (len k : nat) :
  k < (len + n - 1) / n -> k * n < len.
Proof.
  intros Hk.
  pose proof (Nat.div_mod_eq (len + n - 1) n) as E.
  assert (H : (k + 1) * n <= (len + n - 1) / n * n)
    by (apply Nat.mul_le_mono_r; lia).
  rewrite (Nat.mul_comm n) in E; lia.
Qed.

Lemma range_step_index_full (len k : nat) :
  S k < (len + n - 1) / n -> k * n + n <= len.
Proof.
  intros Hk.
  pose proof (Nat.div_mod_eq (len + n - 1) n) as E.
  assert (H : (k + 2) * n <= (len + n - 1) / n * n)
    by (apply Nat.mul_le_mono_r; lia).
  rewrite (Nat.mul_comm n) in E; lia.
Qed.

Lemma slice_step_nonempty (s : str) (i : nat) :
  i < length s -> 0 < length (slice s i (i + n)).
Proof.
  intros Hi; rewrite slice_step, length_firstn, length_skipn.
  apply Nat.min_glb_lt; [exact n_pos | unfold str, char in *; lia].
Qed.

Lemma slice_step_full (s : str) (i : nat) :
  i + n <= length s -> length (slice s i (i + n)) = n.
Proof.
  clear n_pos; intros Hi; rewrite slice_step, length_firstn, length_skipn.
  apply Nat.min_l; unfold str, char in *; lia.
Qed.

Lemma range_slices_nth (s : str) (k : nat) :
  k < (length s + n - 1) / n ->
  nth k (map (fun i => slice s i (i + n)) (range_step (length s) n)) []
  = slice s (k * n) (k * n + n).
Proof.
  intros Hk; unfold range_step; rewrite map_map.
  rewrite (nth_indep _ [] (slice s (0 * n) (0 * n + n)))
    by (now rewrite length_map, length_seq).
  rewrite (map_nth (fun j => slice s (j * n) (j * n + n)) (seq 0 _) 0 k).
  now rewrite seq_nth.
Qed.

End SliceSizes.

Lemma chunks_nonempty (message : str) :
  Forall (fun r => 0 < length r) (chunks message).
Proof.
  unfold chunks, range_step; apply Forall_forall; intros r Hr.
  apply in_map_iff in Hr; destruct Hr as (i & <- & Hi).
  apply in_map_iff in Hi; destruct Hi as (k & <- & Hk).
  apply in_seq in Hk.
  apply slice_step_nonempty; [apply CHUNK_pos|].
  apply range_step_index; [apply CHUNK_pos | lia].
Qed.

Lemma list_message_length (links : list LinkData) :
  0 < length (list_message links).
Proof.
  unfold list_message; rewrite append_links_concat, !length_app.
  cbn [length]; lia.
Qed.

Lemma list_links_concat (db : Collection) (uid : Z) :
  concat (list_links db uid)
  = match find_user db uid with
    | [] => NO_LINKS
    | _ :: _ => list_message (find_user db uid)
    end.
Proof.
  unfold list_links; destruct (find_user db uid) as [|d links];
    [reflexivity|].
  destruct (CHUNK <? length (list_message (d :: links)));
    [apply chunks_concat | cbn [concat]; apply app_nil_r].
Qed.

(** X9: every reply of /list is non-empty and at most 4000 characters
    long, and the replies, concatenated in order, are the no-links message
    when the caller has no document and otherwise the heading followed by
    one line per document of the caller in insertion order. *)
Theorem list_links_replies (db : Collection) (uid : Z) :
  Forall (fun r => 0 < length r <= 4000) (list_links db uid)
  /\ concat (list_links db uid)
     = match find_user db uid with
       | [] => NO_LINKS
       | _ :: _ =>
           u "Your saved links:" ++ [NEWLINE; NEWLINE]
           ++ concat (map format_link (find_user db uid))
       end.
Proof.
  change 4000 with CHUNK; unfold list_links.
  destruct (find_user db uid) as [|d links] eqn:E.
  { split; [|reflexivity].
    constructor; [|constructor].
    split; apply Nat.leb_le; vm_compute; reflexivity. }
  assert (M : list_message (d :: links)
              = u "Your saved links:" ++ [NEWLINE; NEWLINE]
                ++ concat (map format_link (d :: links))).
  { unfold list_message; rewrite append_links_concat, <- !app_assoc.
    reflexivity. }
  destruct (Nat.ltb_spec CHUNK (length (list_message (d :: links))))
    as [Hlong|Hshort].
  - split; [|rewrite chunks_concat; exact M].
    pose proof (chunks_nonempty (list_message (d :: links))) as H1.
    pose proof (chunks_bounded (list_message (d :: links))) as H2.
    rewrite Forall_forall in *; intros r Hr; split; auto.
  - split; [|cbn [concat]; rewrite app_nil_r; exact M].
    constructor; [|constructor].
    split; [apply list_message_length | exact Hshort].
Qed.

(** X10: when /list sends several replies, each of them but the last has
    exactly 4000 characters. *)
Theorem list_links_full_replies (db : Collection) (uid : Z) (k : nat) :
  S k < length (list_links db uid) ->
  length (nth k (list_links db uid) []) = 4000.
Proof.
  change 4000 with CHUNK; unfold list_links.
  destruct (find_user db uid) as [|d links]; [cbn [length]; lia|].
  destruct (CHUNK <? length (list_message (d :: links)));
    [|cbn [length]; lia].
  unfold chunks; rewrite length_map, range_step_length; intros Hk.
  rewrite range_slices_nth by lia.
  apply slice_step_full, range_step_index_full; [apply CHUNK_pos | exact Hk].
Qed.

Lemma list_links_full_replies_witness :
  length (nth 0 (list_links DB_HUNDRED 1) []) = 4000.
Proof.
  apply (@list_links_full_replies DB_HUNDRED 1%Z 0).
  apply Nat.ltb_lt; vm_compute; reflexivity.
Defined.

(** X11: after a successful /save the caller's /list output is the
    previous listing (or the bare heading, if there was none) followed by
    the line of the new document: bullet, link, the tags in brackets when
    there are any, newline. *)
Theorem list_links_after_save {py : Urllib} (db : Collection) (uid now : Z)
    (text : str) (r : LinkData) :
  fst (save_link db uid now text) = db ++ [r] ->
  concat (list_links (db ++ [r]) uid)
  = list_message (find_user db uid)
    ++ [BULLET] ++ u " " ++ link r
    ++ match tags r with
       | [] => []
       | _ :: _ => u " [" ++ join (u ", ") (tags r) ++ u "]"
       end
    ++ [NEWLINE].
Proof.
  intros Hr; apply save_link_saved in Hr; destruct Hr as (-> & _ & _).
  set (r := link_data uid now text).
  assert (F : find_user (db ++ [r]) uid = find_user db uid ++ [r]).
  { rewrite find_user_app; unfold find_user at 2.
    cbn [filter r link_data user_id]; now rewrite Z.eqb_refl. }
  rewrite list_links_concat, F.
  destruct (find_user db uid ++ [r]) as [|d l] eqn:E.
  { now apply app_eq_nil in E. }
  rewrite <- E; unfold list_message, append_links.
  rewrite fold_left_app; cbn [fold_left].
  unfold format_link, format_tags; destruct (tags r); reflexivity.
Qed.

Lemma list_links_after_save_witness :
  let r := {| user_id := 1; link := u "https://www.test.com";
              tags := [u "news"; u "tech"]; created_at := 0 |} in
  concat (list_links ([] ++ [r]) 1)
  = list_message (find_user [] 1)
    ++ [BULLET] ++ u " " ++ link r
    ++ match tags r with
       | [] => []
       | _ :: _ => u " [" ++ join (u ", ") (tags r) ++ u "]"
       end
    ++ [NEWLINE].
Proof.
  intros r.
  apply (@list_links_after_save urllib_plain [] 1%Z 0%Z TEXT_SCENARIO r).
  vm_compute; reflexivity.
Defined.

(** ** /find *)

Lemma replace_absent (c : char) (s : str) : ~ In c s -> replace c [] s = s.
Proof.
  unfold replace; induction s as [|x s IH]; intros H; [reflexivity|].
  cbn [flat_map]; destruct (N.eqb_spec x c) as [->|_].
  - exfalso; apply H; now left.
  - cbn [app]; f_equal; apply IH; intros Hs; apply H; now right.
Qed.

Lemma find_tag_hash (t : str) :
  ~ In HASH t -> find_tag (HASH :: t) = t /\ find_tag t = t.
Proof.
  intros H; unfold find_tag; split; [|now apply replace_absent].
  unfold replace; cbn [flat_map]; rewrite N.eqb_refl; cbn [app].
  now apply replace_absent.
Qed.

Lemma find_message_eq (tag : str) (found : list LinkData) :
  find_message tag found
  = u "Links tagged with #" ++ tag ++ u ":" ++ [NEWLINE; NEWLINE]
    ++ concat (map format_link found).
Proof.
  unfold find_message; rewrite append_links_concat, <- !app_assoc.
  reflexivity.
Qed.

(** X12: the '#' before the tag of /find is optional: for a tag without
    '#', [/find #tag] and [/find tag] get the same reply, whatever follows
    the first argument. *)
Theorem find_by_tag_hash_optional (db : Collection) (uid : Z) (t : str)
    (more more' : list str) :
  ~ In HASH t ->
  find_by_tag db uid ((HASH :: t) :: more) = find_by_tag db uid (t :: more').
Proof.
  intros H; destruct (@find_tag_hash t H) as (E1 & E2).
  unfold find_by_tag; now rewrite E1, E2.
Qed.

Lemma find_by_tag_hash_optional_witness :
  find_by_tag DB_TAGS_2 1 [u "#a"; u "extra"] = find_by_tag DB_TAGS_2 1 [u "a"].
Proof.
  apply (@find_by_tag_hash_optional DB_TAGS_2 1%Z (u "a") [u "extra"] []).
  vm_compute; intros [H|[]]; discriminate H.
Defined.

(** X13: a tag given to a successful /save as the token [#t], [t] without
    '#', is found afterwards: the caller's [/find #t] replies with the
    heading for [t], the lines of the earlier matches and, last, the line
    of the new document. *)
Theorem find_by_tag_after_save {py : Urllib} (db : Collection) (uid now : Z)
    (text : str) (r : LinkData) (t : str) :
  fst (save_link db uid now text) = db ++ [r] ->
  In (HASH :: t) (skipn 2 (split text)) ->
  ~ In HASH t ->
  find_by_tag (db ++ [r]) uid [HASH :: t]
  = [u "Links tagged with #" ++ t ++ u ":" ++ [NEWLINE; NEWLINE]
     ++ concat (map format_link (find_user_tag db uid t))
     ++ format_link r].
Proof.
  intros Hr Ht Hh; apply save_link_saved in Hr; destruct Hr as (-> & _ & _).
  set (r := link_data uid now text).
  assert (Hin : In t (tags r)).
  { cbn [r tags link_data]; rewrite split_strip; now apply extract_tags_In. }
  assert (F : find_user_tag (db ++ [r]) uid t = find_user_tag db uid t ++ [r]).
  { rewrite find_user_tag_app; unfold find_user_tag at 2; cbn [filter].
    replace (user_id r) with uid by reflexivity.
    now rewrite Z.eqb_refl, (proj2 (str_in_In t (tags r)) Hin). }
  unfold find_by_tag; rewrite (proj1 (@find_tag_hash t Hh)), F.
  destruct (find_user_tag db uid t ++ [r]) as [|d l] eqn:E.
  { now apply app_eq_nil in E. }
  rewrite <- E, find_message_eq, map_app, concat_app; cbn [map concat].
  now rewrite app_nil_r.
Qed.

Lemma find_by_tag_after_save_witness :
  let r := {| user_id := 1; link := u "https://www.test.com";
              tags := [u "news"; u "tech"]; created_at := 0 |} in
  find_by_tag ([] ++ [r]) 1 [HASH :: u "news"]
  = [u "Links tagged with #" ++ u "news" ++ u ":" ++ [NEWLINE; NEWLINE]
     ++ concat (map format_link (find_user_tag [] 1 (u "news")))
     ++ format_link r].
Proof.
  intros r.
  apply (@find_by_tag_after_save urllib_plain [] 1%Z 0%Z TEXT_SCENARIO r
           (u "news")).
  - vm_compute; reflexivity.
  - vm_compute; auto.
  - vm_compute; intros [H|[H|[H|[H|[]]]]]; discriminate H.
Defined.

(** X14: /find with an argument replies that no links were found, naming
    the tag searched for, exactly when no document of the caller carries
    that tag. *)
Theorem find_by_tag_none_iff (db : Collection) (uid : Z) (arg0 : str)
    (more : list str) :
  find_by_tag db uid (arg0 :: more)
  = [u "No links found with tag #" ++ find_tag arg0]
  <-> forall d, In d db -> user_id d = uid -> ~ In (find_tag arg0) (tags d).
Proof.
  unfold find_by_tag; split.
  - intros E d Hd Hu Ht.
    assert (Hin : In d (find_user_tag db uid (find_tag arg0))).
    { unfold find_user_tag; apply filter_In; split; [exact Hd|].
      apply andb_true_iff; split; [now apply Z.eqb_eq | now apply str_in_In]. }
    destruct (find_user_tag db uid (find_tag arg0)) as [|d' l]; [exact Hin|].
    rewrite find_message_eq in E.
    apply (f_equal (fun l => nth 0 (hd [] l) 0%N)) in E.
    vm_compute in E; discriminate E.
  - intros H.
    rewrite (no_member_nil (find_user_tag db uid (find_tag arg0)));
      [reflexivity|].
    intros d Hd; unfold find_user_tag in Hd; apply filter_In in Hd.
    destruct Hd as (Hd & Hc); apply andb_true_iff in Hc.
    destruct Hc as (Hu & Ht); apply Z.eqb_eq in Hu; apply str_in_In in Ht.
    exact (H d Hd Hu Ht).
Qed.

(** ** /save: outcome and reply *)

Lemma save_link_insert_reply {py : Urllib} (db : Collection) (uid now : Z)
    (text : str) (res : ParseResult) :
  2 <= length (split (strip text)) ->
  urlparse (add_scheme (nth 1 (split (strip text)) [])) = Parsed res ->
  netloc res <> [] ->
  snd (save_link db uid now text)
  = [u "Link saved successfully with tags: "
     ++ match tags (link_data uid now text) with
        | [] => u "no tags"
        | _ :: _ => join (u ", ") (tags (link_data uid now text))
        end].
Proof.
  intros Hge HE Hn; unfold save_link.
  apply Nat.ltb_ge in Hge; rewrite Hge, HE.
  destruct (netloc res); [congruence | reflexivity].
Qed.

Lemma save_link_outcomes {py : Urllib} (db : Collection) (uid now : Z)
    (text : str) :
  (fst (save_link db uid now text) = db
   /\ (snd (save_link db uid now text) = [SAVE_USAGE]
       \/ snd (save_link db uid now text) = [INVALID_URL]))
  \/ (exists r,
        fst (save_link db uid now text) = db ++ [r]
        /\ snd (save_link db uid now text)
           = [u "Link saved successfully with tags: "
              ++ match tags r with
                 | [] => u "no tags"
                 | _ :: _ => join (u ", ") (tags r)
                 end]).
Proof.
  destruct (Nat.lt_ge_cases (length (split (strip text))) 2) as [Hlt|Hge].
  { left; rewrite (save_link_usage db uid now text Hlt); cbn; auto. }
  destruct (urlparse (add_scheme (nth 1 (split (strip text)) [])))
    as [res|] eqn:HE.
  2:{ left; rewrite (save_link_value_error db uid now text Hge HE).
      cbn; auto. }
  destruct (netloc res) as [|c nl] eqn:Hn.
  { left; rewrite (save_link_no_netloc db uid now text Hge HE Hn).
    cbn; auto. }
  assert (Hne : netloc res <> []) by (rewrite Hn; discriminate).
  right; exists (link_data uid now text); split.
  - exact (save_link_insert db uid now text Hge HE Hne).
  - exact (save_link_insert_reply db uid now text Hge HE Hne).
Qed.

(** X15: a /save has one of three outcomes, told apart by its single
    reply: the usage message or the invalid-URL message, with the
    collection unchanged, or the success message, which names the stored
    tags joined by commas ("no tags" when there are none), with exactly one
    document appended.  Neither failure message starts like the success
    message. *)
Theorem save_link_reply_outcome {py : Urllib} (db : Collection)
    (uid now : Z) (text : str) :
  let out := save_link db uid now text in
  let ok := u "Link saved successfully with tags: " in
  ((fst out = db /\ (snd out = [SAVE_USAGE] \/ snd out = [INVALID_URL]))
   \/ (exists r,
         fst out = db ++ [r]
         /\ snd out = [ok ++ match tags r with
                             | [] => u "no tags"
                             | _ :: _ => join (u ", ") (tags r)
                             end]))
  /\ (forall ts, SAVE_USAGE <> ok ++ ts /\ INVALID_URL <> ok ++ ts).
Proof.
  intros out ok; subst out ok; split.
  - apply save_link_outcomes.
  - intros ts; split; intros E;
      apply (f_equal (fun s => nth 0 s 0%N)) in E; vm_compute in E;
      discriminate E.
Qed.



(** X17: /save never changes or removes a stored document: the new
    collection is the old one followed by at most one document, which has
    the caller as owner and the time of the call as creation time. *)
Theorem save_link_append_only {py : Urllib} (db : Collection) (uid now : Z)
    (text : str) :
  exists new,
    fst (save_link db uid now text) = db ++ new
    /\ length new <= 1
    /\ Forall (fun d => user_id d = uid /\ created_at d = now) new.
Proof.
  destruct (save_link_store db uid now text) as [E|E]; rewrite E.
  - exists []; rewrite app_nil_r; repeat split; [cbn; lia | constructor].
  - exists [link_data uid now text]; repeat split; [cbn; lia|].
    constructor; [split; reflexivity | constructor].
Qed.

(** X19: the outcome of /save depends only on the tokens of the text:
    two texts with the same whitespace-separated tokens, whatever the
    whitespace before, between and after them, change the collection and
    are answered in the same way. *)
Theorem save_link_tokens {py : Urllib} (db : Collection) (uid now : Z)
    (text text' : str) :
  split text = split text' ->
  save_link db uid now text = save_link db uid now text'.
Proof.
  intros E; unfold save_link; now rewrite !split_strip, E.
Qed.

Lemma save_link_tokens_witness :
  save_link (py := urllib_plain) DB_TAGS_1 1 0 TEXT_SCENARIO_SPACED
  = save_link (py := urllib_plain) DB_TAGS_1 1 0 TEXT_SCENARIO.
Proof.
  apply (@save_link_tokens urllib_plain DB_TAGS_1 1%Z 0%Z
           TEXT_SCENARIO_SPACED TEXT_SCENARIO).
  vm_compute; reflexivity.
Defined.

(** X20: a link as it was stored can be saved again and is stored
    unchanged: a /save whose link token is a stored link succeeds and
    stores that same link, without a second scheme prefix. *)
Theorem save_link_stored_link_again {py : Urllib} (db db' : Collection)
    (uid uid' now now' : Z) (text text' : str) (r : LinkData) :
  fst (save_link db uid now text) = db ++ [r] ->
  nth 1 (split text') [] = link r ->
  fst (save_link db' uid' now' text')
  = db' ++ [{| user_id := uid'; link := link r;
               tags := extract_tags (skipn 2 (split text'));
               created_at := now' |}].
Proof.
  intros Hr Hl.
  apply save_link_saved in Hr; destruct Hr as (-> & Hge0 & res & HE & Hn).
  cbn [link link_data] in *.
  assert (Hne : add_scheme (nth 1 (split (strip text)) []) <> []).
  { rewrite split_strip in *; destruct (link_token text Hge0) as (Hne & _).
    unfold add_scheme; destruct (negb (has_http_prefix _));
      [discriminate | exact Hne]. }
  assert (Hge : 2 <= length (split (strip text'))).
  { rewrite split_strip.
    destruct (Nat.lt_ge_cases (length (split text')) 2) as [Hlt|Hge];
      [|exact Hge].
    rewrite nth_overflow in Hl by lia; congruence. }
  assert (Ha : add_scheme (nth 1 (split (strip text')) [])
               = add_scheme (nth 1 (split (strip text)) [])).
  { rewrite (split_strip text'), Hl; unfold add_scheme at 1.
    now rewrite add_scheme_prefix. }
  rewrite <- Ha in HE.
  rewrite (save_link_insert db' uid' now' text' Hge HE Hn).
  unfold link_data; now rewrite Ha, (split_strip text').
Qed.

Lemma save_link_stored_link_again_witness :
  let py := urllib_plain in
  let r := {| user_id := 1; link := u "https://www.test.com";
              tags := [u "news"; u "tech"]; created_at := 0 |} in
  fst (save_link [r] 2 9 TEXT_RESAVE)
  = [r] ++ [{| user_id := 2; link := link r;
               tags := extract_tags (skipn 2 (split TEXT_RESAVE));
               created_at := 9 |}].
Proof.
  intros py r.
  apply (@save_link_stored_link_again py [] [r] 1%Z 2%Z 0%Z 9%Z
           TEXT_SCENARIO TEXT_RESAVE r).
  - vm_compute; reflexivity.
  - vm_compute; reflexivity.
Defined.

(** ** Reading: only the caller's documents count *)

(** X21: the replies of /list, /tags and /find are computed from the
    caller's documents alone: two collections that hold the same documents
    of a user, in the same order, answer that user's three commands in the
    same way, whatever other users have stored. *)
Theorem reads_depend_on_own_documents (db db' : Collection) (uid : Z)
    (args : list str) :
  find_user db uid = find_user db' uid ->
  list_links db uid = list_links db' uid
  /\ show_tags db uid = show_tags db' uid
  /\ find_by_tag db uid args = find_by_tag db' uid args.
Proof.
  intros E; split; [|split].
  - unfold list_links; now rewrite E.
  - unfold show_tags; now rewrite E.
  - unfold find_by_tag; destruct args as [|arg0 args]; [reflexivity|].
    now rewrite !find_user_tag_filter, E.
Qed.

Lemma reads_depend_on_own_documents_witness :
  list_links DB_TAGS_2 2 = list_links (DB_HUNDRED ++ DB_TAGS_2) 2
  /\ show_tags DB_TAGS_2 2 = show_tags (DB_HUNDRED ++ DB_TAGS_2) 2
  /\ find_by_tag DB_TAGS_2 2 [u "#z"]
     = find_by_tag (DB_HUNDRED ++ DB_TAGS_2) 2 [u "#z"].
Proof.
  apply (@reads_depend_on_own_documents DB_TAGS_2 (DB_HUNDRED ++ DB_TAGS_2)
           2%Z [u "#z"]).
  vm_compute; reflexivity.
Defined.
